(** * Identity Integrity Platform: the client-side script, embedded and verified

    A shallow embedding of [static/js/script.js] (class [IdentityPlatform]):
    the field and file validators, the image-quality heuristic, the webcam
    capture and the verification call.

    Conventions of the embedding.
    - A JavaScript string is the list of its UTF-16 code units ([jsstring]).
    - A JavaScript Number is kept abstract behind the interface [JSNumber],
      and the numeric code is written once against it.  Two instances are
      given: [ideal], exact real arithmetic extended with NaN (used for
      what the formulas mean and for bounds that rounding cannot change),
      and [binary64], the IEEE 754 doubles a JavaScript engine computes
      with (used to run the same code on concrete buffers).  The theorems
      stated for every instance hold of the doubles as well.
    - DOM mutations are explicit state passing: a function that touches an
      element returns the element it leaves behind.
    - Asynchronous completions ([toBlob]'s callback, awaited promises) take
      what the browser delivers as an argument. *)

From Stdlib Require Import ZArith NArith List String Ascii Bool Lia Permutation.
From Stdlib Require Import QArith Reals Lra.
From Stdlib Require PrimFloat Uint63 SpecFloat FloatOps.
Import ListNotations.

Set Implicit Arguments.

(* ================================================================== *)
(** * Strings *)

(** UTF-16 code units. *)
Definition jsstring := list N.

(** An ASCII literal of the source as a [jsstring]. *)
Definition str (s : string) : jsstring :=
  map N_of_ascii (list_ascii_of_string s).

(** [a === b] on strings. *)
Fixpoint str_eqb (a b : jsstring) : bool :=
  match a, b with
  | [], [] => true
  | x :: a', y :: b' => N.eqb x y && str_eqb a' b'
  | _, _ => false
  end.

(** [Array.prototype.includes] on an array of strings. *)
Definition includes (xs : list jsstring) (x : jsstring) : bool :=
  existsb (str_eqb x) xs.

(** WhiteSpace and LineTerminator code points of ECMAScript: what
    [String.prototype.trim] strips and what [\s] matches. *)
Definition is_js_space (c : N) : bool :=
  (N.leb 9 c && N.leb c 13)            (* TAB LF VT FF CR *)
  || N.eqb c 32                         (* SPACE *)
  || N.eqb c 160                        (* NO-BREAK SPACE *)
  || N.eqb c 5760                       (* U+1680 *)
  || (N.leb 8192 c && N.leb c 8202)     (* U+2000 .. U+200A *)
  || N.eqb c 8232 || N.eqb c 8233       (* U+2028 U+2029 *)
  || N.eqb c 8239 || N.eqb c 8287       (* U+202F U+205F *)
  || N.eqb c 12288                      (* U+3000 *)
  || N.eqb c 65279.                     (* U+FEFF *)

Fixpoint trimStart (s : jsstring) : jsstring :=
  match s with
  | c :: s' => if is_js_space c then trimStart s' else s
  | [] => []
  end.

Definition trimEnd (s : jsstring) : jsstring := rev (trimStart (rev s)).

(** [String.prototype.trim]. *)
Definition trim (s : jsstring) : jsstring := trimEnd (trimStart s).

(* ================================================================== *)
(** * Numbers *)

(** The operations of JavaScript's Number type that the script uses. *)
Class JSNumber (num : Type) : Type := {
  of_Z : Z -> num;                 (* an integer literal or integer value *)
  dec : Z -> nat -> num;           (* the decimal literal m * 10^-e *)
  NaN : num;
  add : num -> num -> num;
  sub : num -> num -> num;
  mul : num -> num -> num;
  div : num -> num -> num;
  Math_sqrt : num -> num;
  Math_abs : num -> num;
  Math_min : num -> num -> num;
  Math_pow2 : num -> num;          (* Math.pow(x, 2) *)
  ge : num -> num -> bool          (* x >= y *)
}.

Declare Scope js_scope.
Delimit Scope js_scope with js.
Infix "+" := add : js_scope.
Infix "-" := sub : js_scope.
Infix "*" := mul : js_scope.
Infix "/" := div : js_scope.
Infix ">=" := ge : js_scope.

(** ** Exact arithmetic with NaN

    [Some x] is the finite number [x]; [None] is NaN.  Infinities are not
    represented: a quotient by zero is NaN here, which is JavaScript's
    answer when the dividend is zero too, the only such quotient the
    script can form ([0 / 0] on an empty buffer).

    No operation rounds here, while the engine rounds every one: this
    instance says what the formulas mean, not which double the engine
    returns.  What is stated on it speaks for the code where rounding
    cannot change the conclusion (inequalities with room to spare, values
    the doubles compute exactly), and such statements come with a run of
    the same code on [binary64]; what the code returns in general is stated
    for every instance of [JSNumber]. *)
Definition ideal : Type := option R.

Definition lift1 (f : R -> R) (a : ideal) : ideal :=
  match a with Some x => Some (f x) | None => None end.

Definition lift2 (f : R -> R -> R) (a b : ideal) : ideal :=
  match a, b with Some x, Some y => Some (f x y) | _, _ => None end.

Definition ideal_div (a b : ideal) : ideal :=
  match a, b with
  | Some x, Some y => if Req_dec_T y 0 then None else Some (x / y)%R
  | _, _ => None
  end.

Definition ideal_sqrt (a : ideal) : ideal :=
  match a with
  | Some x => if Rlt_dec x 0 then None else Some (sqrt x)
  | None => None
  end.

Definition ideal_ge (a b : ideal) : bool :=
  match a, b with
  | Some x, Some y => if Rle_dec y x then true else false
  | _, _ => false
  end.

#[export] Instance ideal_number : JSNumber ideal := {
  of_Z z := Some (IZR z);
  dec m e := Some (IZR m / 10 ^ e)%R;
  NaN := None;
  add := lift2 Rplus;
  sub := lift2 Rminus;
  mul := lift2 Rmult;
  div := ideal_div;
  Math_sqrt := ideal_sqrt;
  Math_abs := lift1 Rabs;
  Math_min := lift2 Rmin;
  Math_pow2 := lift1 (fun x => x * x)%R;
  ge := ideal_ge
}.

(** ** IEEE 754 binary64

    The engine's own numbers.  [Math.pow(x, 2)] is [x * x] (the fdlibm
    special case engines share); a decimal literal is the correctly rounded
    quotient of its two exactly representable parts. *)
Definition binary64 : Type := PrimFloat.float.

Definition binary64_of_Z (z : Z) : binary64 :=
  if (z <? 0)%Z then PrimFloat.opp (PrimFloat.of_uint63 (Uint63.of_Z (- z)))
  else PrimFloat.of_uint63 (Uint63.of_Z z).

Definition binary64_min (a b : binary64) : binary64 :=
  if PrimFloat.is_nan a || PrimFloat.is_nan b then PrimFloat.nan
  else if PrimFloat.ltb b a then b
  else if PrimFloat.ltb a b then a
  else if PrimFloat.get_sign b then b else a.

#[export] Instance binary64_number : JSNumber binary64 := {
  of_Z := binary64_of_Z;
  dec m e := PrimFloat.div (binary64_of_Z m) (binary64_of_Z (10 ^ Z.of_nat e));
  NaN := PrimFloat.nan;
  add := PrimFloat.add;
  sub := PrimFloat.sub;
  mul := PrimFloat.mul;
  div := PrimFloat.div;
  Math_sqrt := PrimFloat.sqrt;
  Math_abs := PrimFloat.abs;
  Math_min := binary64_min;
  Math_pow2 x := PrimFloat.mul x x;
  ge a b := PrimFloat.leb b a
}.

(* ================================================================== *)
(** * Image quality estimator *)

(** [ImageData]: a [Uint8ClampedArray] of RGBA bytes, row-major. *)
Record ImageData : Type := {
  data : list Z;
  width : Z;
  height : Z
}.

(** One pixel of a canvas raster. *)
Record Pixel : Type := { red : Z; green : Z; blue : Z; alpha : Z }.

Definition rgba_bytes (p : Pixel) : list Z := [red p; green p; blue p; alpha p].

(** The buffer a raster of the given pixels has. *)
Definition rgba (pixels : list Pixel) : list Z := flat_map rgba_bytes pixels.

(** A channel is a byte. *)
Definition channels_in_range (p : Pixel) : Prop :=
  (0 <= red p <= 255 /\ 0 <= green p <= 255 /\ 0 <= blue p <= 255)%Z.

Section Quality.
Context {num : Type} {number : JSNumber num}.
Local Open Scope js_scope.

(** [data[i]] as an operand: a read past the end is [undefined], and
    [undefined] in arithmetic is NaN. *)
Definition at_index (d : list Z) (i : nat) : num :=
  match nth_error d i with
  | Some v => of_Z v
  | None => NaN
  end.

(** [for (let i = 0; i < data.length; i += 4) acc = body(i, acc)]. *)
Fixpoint for_step4 (fuel i len : nat) (body : nat -> num -> num) (acc : num) : num :=
  match fuel with
  | O => acc
  | S fuel' =>
      if (i <? len)%nat
      then for_step4 fuel' (i + 4)%nat len body (body i acc)
      else acc
  end.

(** [(data[i] + data[i + 1] + data[i + 2]) / 3]. *)
Definition pixelBrightness (d : list Z) (i : nat) : num :=
  (at_index d i + at_index d (i + 1) + at_index d (i + 2)) / of_Z 3.

(** [data.length / 4]. *)
Definition pixelCount (d : list Z) : num :=
  of_Z (Z.of_nat (List.length d)) / of_Z 4.

(** The value of [brightness] after the first loop and its division. *)
Definition brightness (d : list Z) : num :=
  let sum :=
    for_step4 (List.length d) 0 (List.length d)
      (fun i acc => acc + pixelBrightness d i) (of_Z 0) in
  sum / pixelCount d.

(** The value of [contrast]. *)
Definition contrast (d : list Z) : num :=
  let b := brightness d in
  let sumSquaredDiff :=
    for_step4 (List.length d) 0 (List.length d)
      (fun i acc => acc + Math_pow2 (pixelBrightness d i - b)) (of_Z 0) in
  Math_sqrt (sumSquaredDiff / pixelCount d).

Definition brightnessScore (d : list Z) : num :=
  of_Z 1 - Math_abs (brightness d - of_Z 127) / of_Z 127.

Definition contrastScore (d : list Z) : num :=
  Math_min (contrast d / of_Z 64) (of_Z 1).

Definition calculateImageQuality (imageData : ImageData) : num :=
  let d := data imageData in
  brightnessScore d * dec 4 1 + contrastScore d * dec 6 1.

Definition generateQualityFeedback (qualityScore : num) : jsstring :=
  if qualityScore >= dec 8 1 then
    str "Excellent image quality"
  else if qualityScore >= dec 6 1 then
    str "Good image quality"
  else if qualityScore >= dec 4 1 then
    str "Fair image quality - consider retaking with better lighting"
  else
    str "Poor image quality - please retake with better lighting and focus".
End Quality.

(** The loops seen pixel by pixel, in any arithmetic: the value the body
    computes for a pixel, and the running sum over a raster in order. *)
Definition pixel_value {num : Type} {number : JSNumber num} (p : Pixel) : num :=
  div (add (add (of_Z (red p)) (of_Z (green p))) (of_Z (blue p))) (of_Z 3).

Definition ordered_sum {num : Type} {number : JSNumber num}
  (f : Pixel -> num) (pixels : list Pixel) : num :=
  fold_left (fun acc p => add acc (f p)) pixels (of_Z 0).

(* ================================================================== *)
(** * Validators *)

(** A [Blob]: its byte size and MIME type. *)
Record Blob : Type := { blob_size : Z; blob_type : jsstring }.

(** A [File] of a file input. *)
Record File : Type := {
  file_bits : list (option Blob);   (* the parts it was built from *)
  file_name : jsstring;
  file_type : jsstring;
  file_size : Z
}.

(** An [input] or [select] element, with what the script reads and writes:
    its own properties, and the [.field-error] annotations found under its
    parent node, in document order. *)
Record Field : Type := {
  field_type : jsstring;
  field_name : jsstring;
  field_required : bool;
  field_value : jsstring;
  field_files : list File;
  parent_errors : list jsstring;
  border_color : jsstring
}.

Definition validateImageFile (file : File) : bool :=
  let validTypes := [str "image/jpeg"; str "image/jpg"; str "image/png"] in
  let maxSize := (5 * 1024 * 1024)%Z in
  if negb (includes validTypes (file_type file)) then false
  else if (file_size file >? maxSize)%Z then false
  else true.

(** [field.parentNode.querySelector('.field-error')] finds the first
    annotation; [remove()] drops it. *)
Definition clearFieldError (field : Field) : Field :=
  {| field_type := field_type field;
     field_name := field_name field;
     field_required := field_required field;
     field_value := field_value field;
     field_files := field_files field;
     parent_errors := tl (parent_errors field);
     border_color := str "" |}.

(** The new annotation is appended as the parent's last child. *)
Definition showFieldError (field : Field) (message : jsstring) : Field :=
  let field := clearFieldError field in
  {| field_type := field_type field;
     field_name := field_name field;
     field_required := field_required field;
     field_value := field_value field;
     field_files := field_files field;
     parent_errors := parent_errors field ++ [message];
     border_color := str "#e74c3c" |}.

Definition is_ascii_letter (c : N) : bool :=
  ((97 <=? c) && (c <=? 122) || (65 <=? c) && (c <=? 90))%N.

(** [/^[a-zA-Z\s]+$/.test(s)]: one or more code units, each of the class. *)
Definition name_pattern_test (s : jsstring) : bool :=
  match s with
  | [] => false
  | _ => forallb (fun c => is_ascii_letter c || is_js_space c) s
  end.

(** The value of a digit of the given radix, if the code unit is one. *)
Definition digit_value (radix : Z) (c : N) : option Z :=
  let v :=
    if ((48 <=? c) && (c <=? 57))%N then Some (Z.of_N c - 48)%Z
    else if ((97 <=? c) && (c <=? 122))%N then Some (Z.of_N c - 87)%Z
    else if ((65 <=? c) && (c <=? 90))%N then Some (Z.of_N c - 55)%Z
    else None in
  match v with
  | Some d => if (d <? radix)%Z then Some d else None
  | None => None
  end.

(** The longest prefix of radix digits, as their values. *)
Fixpoint leading_digits (radix : Z) (s : jsstring) : list Z :=
  match s with
  | c :: s' =>
      match digit_value radix c with
      | Some d => d :: leading_digits radix s'
      | None => []
      end
  | [] => []
  end.

Definition digits_value (radix : Z) (ds : list Z) : Z :=
  fold_left (fun acc d => acc * radix + d)%Z ds 0%Z.

(** Steps 7 to 14 of [parseInt] with no radix argument: a "0x" or "0X"
    prefix selects radix 16, and the leading digits give the magnitude. *)
Definition parse_magnitude (s : jsstring) : option Z :=
  let '(radix, s) :=
    match s with
    | c0 :: c1 :: s' =>
        if ((c0 =? 48) && ((c1 =? 120) || (c1 =? 88)))%N then (16%Z, s')
        else (10%Z, s)
    | _ => (10%Z, s)
    end in
  match leading_digits radix s with
  | [] => None
  | ds => Some (digits_value radix ds)
  end.

(** [parseInt(s)] with no radix argument; [None] is NaN.  The result is the
    exact integer: the comparisons the script makes with it fall the same
    way on the Number it rounds to. *)
Definition parseInt (s : jsstring) : option Z :=
  let s := trimStart s in
  let '(sign, s) :=
    match s with
    | c :: s' =>
        if (c =? 45)%N then ((-1)%Z, s')
        else if (c =? 43)%N then (1%Z, s')
        else (1%Z, s)
    | [] => (1%Z, s)
    end in
  match parse_magnitude s with
  | None => None
  | Some m => Some (sign * m)%Z
  end.

(** The [switch] of [validateField]: the verdict and the message. *)
Definition checkField (field : Field) : bool * jsstring :=
  let value := trim (field_value field) in
  if str_eqb (field_type field) (str "text") then
    if str_eqb (field_name field) (str "full_name") then
      if (List.length value <? 2)%nat then
        (false, str "Name must be at least 2 characters long")
      else if negb (name_pattern_test value) then
        (false, str "Name can only contain letters and spaces")
      else (true, str "")
    else if str_eqb (field_name field) (str "application_id") then
      if (List.length value <? 3)%nat then
        (false, str "Application ID must be at least 3 characters long")
      else (true, str "")
    else (true, str "")
  else if str_eqb (field_type field) (str "number") then
    if str_eqb (field_name field) (str "age") then
      match parseInt value with
      | None => (false, str "Age must be between 16 and 100")
      | Some age =>
          if ((age <? 16) || (age >? 100))%Z
          then (false, str "Age must be between 16 and 100")
          else (true, str "")
      end
    else (true, str "")
  else if str_eqb (field_type field) (str "file") then
    match field_files field with
    | file :: _ =>
        let isValid := validateImageFile file in
        if negb isValid
        then (false, str "Please upload a valid image file (JPEG, PNG) under 5MB")
        else (true, str "")
    | [] => (true, str "")
    end
  else if str_eqb (field_type field) (str "select-one") then
    match value with
    | [] => (false, str "Please select an option")
    | _ => (true, str "")
    end
  else (true, str "").

Definition validateField (field : Field) : bool * Field :=
  let '(isValid, errorMessage) := checkField field in
  if negb isValid
  then (isValid, showFieldError field errorMessage)
  else (isValid, clearFieldError field).

(** ** The validators as the specification words them *)

(** Only letters and whitespace. *)
Definition letters_and_whitespace (s : jsstring) : Prop :=
  Forall (fun c => is_ascii_letter c = true \/ is_js_space c = true) s.

(** "Length at least 2 and letters or whitespace only", of a string. *)
Definition name_rule (s : jsstring) : Prop :=
  (2 <= List.length s)%nat /\ letters_and_whitespace s.

Definition is_decimal_digit (c : N) : bool := ((48 <=? c) && (c <=? 57))%N.

Definition numeral_value (ds : jsstring) : Z :=
  fold_left (fun acc c => acc * 10 + (Z.of_N c - 48))%Z ds 0%Z.

(** The string is a decimal numeral of the integer: digits only, after an
    optional sign. *)
Inductive denotes_integer : jsstring -> Z -> Prop :=
| unsigned_numeral (ds : jsstring) :
    ds <> [] -> forallb is_decimal_digit ds = true ->
    denotes_integer ds (numeral_value ds)
| negative_numeral (ds : jsstring) :
    ds <> [] -> forallb is_decimal_digit ds = true ->
    denotes_integer (45%N :: ds) (- numeral_value ds)
| positive_numeral (ds : jsstring) :
    ds <> [] -> forallb is_decimal_digit ds = true ->
    denotes_integer (43%N :: ds) (numeral_value ds).

(** "An integer in [16, 100]", of a field value. *)
Definition age_rule (value : jsstring) : Prop :=
  exists n : Z, denotes_integer (trim value) n /\ (16 <= n <= 100)%Z.

(** The (type, name) combinations [validateField] has no check for. *)
Definition unchecked (field : Field) : Prop :=
  (field_type field = str "text" /\
   field_name field <> str "full_name" /\
   field_name field <> str "application_id") \/
  (field_type field = str "number" /\ field_name field <> str "age") \/
  (field_type field = str "file" /\ field_files field = []) \/
  (field_type field <> str "text" /\ field_type field <> str "number" /\
   field_type field <> str "file" /\ field_type field <> str "select-one").

(** A fresh input element of the given type, name and value. *)
Definition input_element (type name value : string) : Field :=
  {| field_type := str type;
     field_name := str name;
     field_required := true;
     field_value := str value;
     field_files := [];
     parent_errors := [];
     border_color := str "" |}.

(* ================================================================== *)
(** * Completions and observable effects *)

(** A thrown value. *)
Record JSError : Type := { error_name : jsstring; error_message : jsstring }.

(** [new Error(message)]. *)
Definition new_Error (message : jsstring) : JSError :=
  {| error_name := str "Error"; error_message := message |}.

(** How an evaluation, or an awaited promise, ends. *)
Inductive Completion (A : Type) : Type :=
| Normal (a : A)
| Throw (e : JSError).

Arguments Normal {A} a.
Arguments Throw {A} e.

Definition bind {A B : Type} (c : Completion A) (k : A -> Completion B) : Completion B :=
  match c with
  | Normal a => k a
  | Throw e => Throw e
  end.

Notation "x <- c ;; k" := (bind c (fun x => k))
  (at level 61, c at next level, right associativity).

(** What the script does to the page and the console besides the state it
    returns. *)
Inductive Effect : Type :=
| ConsoleError (label : jsstring) (error : JSError)
| WebcamErrorShown (message : jsstring)
| FaceDetectionOverlay
| ImagePreviewRequested (file : File)
| QualityAnalysisRequested (file : File)
| CaptureSuccessShown
| UncaughtTypeError.

(* ================================================================== *)
(** * Upload handling *)

Definition set_files (input : Field) (files : list File) : Field :=
  {| field_type := field_type input;
     field_name := field_name input;
     field_required := field_required input;
     field_value := field_value input;
     field_files := files;
     parent_errors := parent_errors input;
     border_color := border_color input |}.

(** [input.value = ''] on a file input empties its selection. *)
Definition reset_value (input : Field) : Field :=
  {| field_type := field_type input;
     field_name := field_name input;
     field_required := field_required input;
     field_value := str "";
     field_files := [];
     parent_errors := parent_errors input;
     border_color := border_color input |}.

(** The [change] listener [setupImageProcessing] puts on every file input. *)
Definition handleImageUpload (input : Field) : Field * list Effect :=
  match field_files input with
  | [] => (input, [])
  | file :: _ =>
      if negb (validateImageFile file) then
        (reset_value
           (showFieldError input
              (str "Please upload a valid image file (JPEG, PNG) under 5MB")),
         [])
      else
        (clearFieldError input,
         [ImagePreviewRequested file; QualityAnalysisRequested file])
  end.

(** A manual upload: the browser stores the user's selection in the input
    and fires [change] on it. *)
Definition manual_upload (input : Field) (file : File) : Field * list Effect :=
  handleImageUpload (set_files input [file]).

(* ================================================================== *)
(** * Capture pipeline *)

Definition MediaStream : Type := nat.
Definition Frame : Type := list Pixel.

Record Video : Type := {
  videoWidth : Z;
  videoHeight : Z;
  srcObject : option MediaStream;
  currentFrame : Frame
}.

Record Canvas : Type := {
  canvas_width : Z;
  canvas_height : Z;
  canvas_raster : option Frame
}.

Record Button : Type := { disabled : bool }.

(** The page as the webcam code sees it: the elements [initializeWebcam]
    looks up, [None] being a lookup that found nothing, and whether the
    document has a [.webcam-section] element. *)
Record Platform : Type := {
  video : option Video;
  canvas : option Canvas;
  captureBtn : option Button;
  fileInput : option Field;
  webcamSection : bool
}.

(** A pending [canvas.toBlob(callback, type, quality)]. *)
Record ToBlobRequest : Type := {
  request_source : Canvas;
  request_type : jsstring;
  request_quality : Q
}.

(** [showWebcamError]: the message is appended to the [.webcam-section]
    element, if the document has one. *)
Definition showWebcamError (p : Platform) (message : jsstring) : list Effect :=
  if webcamSection p then [WebcamErrorShown message] else [].

(** [getUserMedia] settles as given.  Everything after it runs inside the
    [try]: a missing element makes the assignment to it throw a TypeError,
    which the [catch] reports like a refusal. *)
Definition setupWebcam (p : Platform) (getUserMedia : Completion MediaStream)
  : Platform * list Effect :=
  let webcamError (p : Platform) (error : JSError) :=
    (p, ConsoleError (str "Error accessing webcam:") error
        :: showWebcamError p
             (str "Unable to access webcam. Please check permissions.")) in
  let typeError := {| error_name := str "TypeError"; error_message := str "" |} in
  match getUserMedia with
  | Throw error => webcamError p error
  | Normal stream =>
      match video p with
      | None => webcamError p typeError
      | Some v =>
          let v' := {| videoWidth := videoWidth v;
                       videoHeight := videoHeight v;
                       srcObject := Some stream;
                       currentFrame := currentFrame v |} in
          match captureBtn p with
          | None =>
              webcamError {| video := Some v'; canvas := canvas p;
                             captureBtn := None; fileInput := fileInput p;
                             webcamSection := webcamSection p |}
                          typeError
          | Some _ =>
              ({| video := Some v';
                  canvas := canvas p;
                  captureBtn := Some {| disabled := false |};
                  fileInput := fileInput p;
                  webcamSection := webcamSection p |},
               [FaceDetectionOverlay])
          end
      end
  end.

Definition initializeWebcam (p : Platform) (getUserMedia : Completion MediaStream)
  : Platform * list Effect :=
  match video p, captureBtn p with
  | Some _, Some _ => setupWebcam p getUserMedia
  | _, _ => (p, [])
  end.

(** The spec's StreamActive state: the stream was granted and attached, and
    the capture control is enabled. *)
Definition StreamActive (p : Platform) : Prop :=
  exists v stream,
    video p = Some v /\ srcObject v = Some stream /\
    captureBtn p = Some {| disabled := false |}.

(** The synchronous part of [captureWebcamPhoto]: the frame is drawn and
    the encoding is requested. *)
Definition captureWebcamPhoto (p : Platform) : Platform * option ToBlobRequest :=
  match video p, canvas p with
  | Some v, Some _ =>
      let c := {| canvas_width := videoWidth v;
                  canvas_height := videoHeight v;
                  canvas_raster := Some (currentFrame v) |} in
      ({| video := video p;
          canvas := Some c;
          captureBtn := captureBtn p;
          fileInput := fileInput p;
          webcamSection := webcamSection p |},
       Some {| request_source := c;
               request_type := str "image/jpeg";
               request_quality := 9 # 10 |})
  | _, _ => (p, None)
  end.

(** The byte length of a [File] part; a [null] part is the text "null". *)
Definition part_size (part : option Blob) : Z :=
  match part with
  | Some b => blob_size b
  | None => 4
  end.

(** [new File(bits, name, { type })]. *)
Definition new_File (bits : list (option Blob)) (name type : jsstring) : File :=
  {| file_bits := bits;
     file_name := name;
     file_type := type;
     file_size := fold_right Z.add 0%Z (map part_size bits) |}.

Definition showCaptureSuccess (p : Platform) : list Effect :=
  match captureBtn p with
  | Some _ => [CaptureSuccessShown]
  | None => [UncaughtTypeError]
  end.

(** The callback given to [toBlob], run with the blob the browser
    delivers ([None] is [null]).  Dispatching [change] on the file input
    runs its listener, [handleImageUpload]. *)
Definition toBlob_callback (p : Platform) (blob : option Blob) : Platform * list Effect :=
  let file := new_File [blob] (str "webcam_capture.jpg") (str "image/jpeg") in
  let dataTransfer_files := [file] in
  match fileInput p with
  | Some input =>
      let '(input', effects) := handleImageUpload (set_files input dataTransfer_files) in
      ({| video := video p;
          canvas := canvas p;
          captureBtn := captureBtn p;
          fileInput := Some input';
          webcamSection := webcamSection p |},
       effects ++ showCaptureSuccess p)
  | None => (p, showCaptureSuccess p)
  end.

(** A capture from the click to the end of the callback. *)
Definition capture (p : Platform) (encode : ToBlobRequest -> option Blob)
  : Platform * list Effect :=
  match captureWebcamPhoto p with
  | (p', Some request) => toBlob_callback p' (encode request)
  | (p', None) => (p', [])
  end.

(* ================================================================== *)
(** * Verification call *)

Section Verify.
Variable Json : Type.

Record Request : Type := {
  request_url : jsstring;
  request_method : jsstring;
  request_body : list (jsstring * File)
}.

(** What the script reads of a [Response]: [ok], and how [json()] settles. *)
Record Response : Type := {
  ok : bool;
  json : Completion Json
}.

(** [try { ... } catch (error) { handler }]. *)
Definition try_catch {A : Type} (body : Completion A)
  (handler : JSError -> list Effect * Completion A) : list Effect * Completion A :=
  match body with
  | Normal a => ([], Normal a)
  | Throw error => handler error
  end.

Definition verifyFaceAPI (fetch : Request -> Completion Response) (imageFile : File)
  : list Effect * Completion Json :=
  let formData := [(str "face_image", imageFile)] in
  try_catch
    (response <- fetch {| request_url := str "/api/verify";
                          request_method := str "POST";
                          request_body := formData |} ;;
     if negb (ok response) then Throw (new_Error (str "Verification failed"))
     else json response)
    (fun error => ([ConsoleError (str "API Error:") error], Throw error)).
End Verify.

(** ** Outcomes of the verification call, as the specification words them *)

Section VerifyOutcomes.
Variable Json : Type.
Variable fetch : Request -> Completion (Response Json).
Variable imageFile : File.

(** The one request [verifyFaceAPI] sends. *)
Definition verify_request : Request :=
  {| request_url := str "/api/verify";
     request_method := str "POST";
     request_body := [(str "face_image", imageFile)] |}.

Definition fetch_fails : Prop :=
  exists e, fetch verify_request = Throw e.

Definition response_not_ok : Prop :=
  exists r, fetch verify_request = Normal r /\ ok r = false.

Definition body_not_json : Prop :=
  exists r e, fetch verify_request = Normal r /\ ok r = true /\ json r = Throw e.
End VerifyOutcomes.

Definition throws {A : Type} (c : Completion A) : Prop := exists e, c = Throw e.

(** A server that answers 200 with a body that is not JSON. *)
Definition not_json_server (request : Request) : Completion (Response unit) :=
  Normal {| ok := true;
            json := Throw {| error_name := str "SyntaxError";
                             error_message := str "Unexpected token" |} |}.

(** ** Pages for the capture pipeline *)

Definition upload_input : Field :=
  {| field_type := str "file";
     field_name := str "face_image";
     field_required := true;
     field_value := str "";
     field_files := [];
     parent_errors := [];
     border_color := str "" |}.

(** A page with the video, the capture button and the file input, and no
    element with id [canvas]. *)
Definition page_without_canvas : Platform :=
  {| video := Some {| videoWidth := 1280; videoHeight := 720;
                      srcObject := None; currentFrame := [] |};
     canvas := None;
     captureBtn := Some {| disabled := true |};
     fileInput := Some upload_input;
     webcamSection := true |}.

(** The same page with a canvas. *)
Definition page_with_canvas : Platform :=
  {| video := video page_without_canvas;
     canvas := Some {| canvas_width := 300; canvas_height := 150;
                       canvas_raster := None |};
     captureBtn := captureBtn page_without_canvas;
     fileInput := fileInput page_without_canvas;
     webcamSection := webcamSection page_without_canvas |}.

(* ================================================================== *)
(** * Quality feedback box *)

Section QualityFeedback.
Context {num : Type} {number : JSNumber num}.
(** [Math.round], which the interface above does not list. *)
Variable Math_round : num -> num.
Local Open Scope js_scope.

(** What [analyzeImageQuality] resolves with. *)
Record QualityResult : Type := {
  score : num;
  feedback : jsstring;
  dimensions : Z * Z
}.

(** The [onload] handler of [analyzeImageQuality], from the raster
    [getImageData] returns for the decoded image. *)
Definition analyzeImageQuality (img_width img_height : Z) (imageData : ImageData)
  : QualityResult :=
  let quality := calculateImageQuality imageData in
  {| score := quality;
     feedback := generateQualityFeedback quality;
     dimensions := (img_width, img_height) |}.

(** A [.quality-feedback] element: its three colours, and the values its
    template interpolates. *)
Record FeedbackBox : Type := {
  box_background : jsstring;
  box_border : jsstring;
  box_color : jsstring;
  box_percent : num;
  box_feedback : jsstring;
  box_dimensions : Z * Z
}.

(** [showQualityFeedback], on the [.quality-feedback] elements of the
    document in document order: the first one found is removed and the new
    one is appended. *)
Definition showQualityFeedback (quality : QualityResult) (existing : list FeedbackBox)
  : list FeedbackBox :=
  let feedbackDiv :=
    {| box_background :=
         if score quality >= dec 6 1 then str "#e8f5e8" else str "#fff3cd";
       box_border :=
         if score quality >= dec 6 1 then str "#d4edda" else str "#ffeaa7";
       box_color :=
         if score quality >= dec 6 1 then str "#155724" else str "#856404";
       box_percent := Math_round (score quality * of_Z 100);
       box_feedback := feedback quality;
       box_dimensions := dimensions quality |} in
  tl existing ++ [feedbackDiv].
End QualityFeedback.

(** [Math.round] in exact arithmetic: the nearest integer, a tie going up. *)
Definition ideal_round (a : ideal) : ideal :=
  lift1 (fun x => IZR (Int_part (x + / 2)))%R a.

(** The colour channels of a pixel, without its alpha. *)
Definition colour (p : Pixel) : Z * Z * Z := (red p, green p, blue p).

Definition black : Pixel := {| red := 0; green := 0; blue := 0; alpha := 255 |}.
Definition white : Pixel := {| red := 255; green := 255; blue := 255; alpha := 255 |}.

(* ================================================================== *)
(** * Input listeners *)

(** The [input] listener [setupInputMasks] puts on the name input:
    [value.replace(/[^a-zA-Z\s]/g, '')]. *)
Definition nameInput_onInput (value : jsstring) : jsstring :=
  filter (fun c => is_ascii_letter c || is_js_space c) value.

(** A [.character-counter] element: the two numbers of its text
    [`${currentLength}/${maxLength}`] and its colour. *)
Record CharacterCounter : Type := {
  counter_currentLength : nat;
  counter_maxLength : Z;
  counter_color : jsstring
}.

(** The [input] listener of [setupCharacterCounters], from the element's
    [maxLength] property and its value.  [currentLength > maxLength * 0.8]
    is decided on the exact product: the double product rounds to the same
    side of every integer. *)
Definition characterCounter_onInput (maxLength_property : Z) (value : jsstring)
  : CharacterCounter :=
  let maxLength := if (maxLength_property =? 0)%Z then 100%Z else maxLength_property in
  let currentLength := List.length value in
  {| counter_currentLength := currentLength;
     counter_maxLength := maxLength;
     counter_color :=
       if negb (Qle_bool (inject_Z (Z.of_nat currentLength))
                         (inject_Z maxLength * (8 # 10)))
       then str "#e74c3c"
       else str "#7f8c8d" |}.

(** An [input] event on the name input of a form: the listeners run in the
    order the constructor registered them, [clearFieldError] first, then the
    mask, then the counter. *)
Definition fullName_onInput (maxLength_property : Z) (field : Field)
  : Field * CharacterCounter :=
  let field := clearFieldError field in
  let field :=
    {| field_type := field_type field;
       field_name := field_name field;
       field_required := field_required field;
       field_value := nameInput_onInput (field_value field);
       field_files := field_files field;
       parent_errors := parent_errors field;
       border_color := border_color field |} in
  (field, characterCounter_onInput maxLength_property (field_value field)).

(* ================================================================== *)
(** * Form validation and submission *)

(** The pass of [validateForm] over [input[required], select[required]]. *)
Definition validateRequired (input : Field) : bool * Field :=
  if field_required input then validateField input else (true, input).

(** The pass of [validateForm] over [input[type="file"]]. *)
Definition validateFileInput (input : Field) : bool * Field :=
  if str_eqb (field_type input) (str "file") then
    match field_files input with
    | [] => (false, showFieldError input (str "This field is required"))
    | file :: _ =>
        if negb (validateImageFile file)
        then (false,
              showFieldError input (str "Please upload a valid image file (JPEG, PNG)"))
        else (true, input)
    end
  else (true, input).

(** [validateForm], on the [input] and [select] elements of the form in
    document order, each under a parent node of its own.  Both passes visit
    every element they select: [forEach] has no early exit. *)
Definition validateForm (form : list Field) : bool * list Field :=
  let pass1 := map validateRequired form in
  let pass2 := map validateFileInput (map snd pass1) in
  (forallb fst pass1 && forallb fst pass2, map snd pass2).

(** The first [button[type="submit"]] of a form. *)
Record SubmitButton : Type := {
  innerHTML : jsstring;
  button_disabled : bool;
  dataset_originalText : option jsstring
}.

Record Form : Type := {
  form_fields : list Field;
  form_submitBtn : option SubmitButton
}.

Inductive SubmitEffect : Type :=
| DefaultPrevented
| FormErrorShown (message : jsstring)
| SpinnerStyleAppended.

(** The markup [showLoadingState] writes into the button. *)
Definition loading_markup : jsstring :=
  [10%N] ++ repeat 32%N 12 ++ str "<div class=" ++ [34%N] ++ str "loading-spinner"
  ++ [34%N] ++ str "></div>" ++ [10%N] ++ repeat 32%N 12 ++ str "Processing..."
  ++ [10%N] ++ repeat 32%N 8.

Section LoadingState.
(** The text a button shows for the markup it holds ([textContent]). *)
Variable textContent : jsstring -> jsstring.
(** What [innerHTML] reads after a string was assigned to it: the string
    parsed as HTML and serialised again, so "<b>Go" reads back as
    "<b>Go</b>".  The spinner markup is well formed and reads back as
    written. *)
Variable innerHTML_assigned : jsstring -> jsstring.

Definition showLoadingState (form : Form) : Form * list SubmitEffect :=
  match form_submitBtn form with
  | None => (form, [])
  | Some submitBtn =>
      let originalText := textContent (innerHTML submitBtn) in
      ({| form_fields := form_fields form;
          form_submitBtn :=
            Some {| innerHTML := loading_markup;
                    button_disabled := true;
                    dataset_originalText := Some originalText |} |},
       [SpinnerStyleAppended])
  end.

Definition resetLoadingState (form : Form) : Form :=
  match form_submitBtn form with
  | None => form
  | Some submitBtn =>
      match dataset_originalText submitBtn with
      | None | Some [] => form
      | Some originalText =>
          {| form_fields := form_fields form;
             form_submitBtn :=
               Some {| innerHTML := innerHTML_assigned originalText;
                       button_disabled := false;
                       dataset_originalText := dataset_originalText submitBtn |} |}
      end
  end.

(** A [submit] event on a form: the listener of [setupFormValidation], then
    the listener of [setupRealTimeFeedback]. *)
Definition onSubmit (form : Form) : Form * list SubmitEffect :=
  let '(isValid, fields) := validateForm (form_fields form) in
  let effects :=
    if negb isValid
    then [DefaultPrevented;
          FormErrorShown (str "Please fix the errors before submitting.")]
    else [] in
  let '(form, effects') :=
    showLoadingState {| form_fields := fields;
                        form_submitBtn := form_submitBtn form |} in
  (form, effects ++ effects').
End LoadingState.

(** The test of the [beforeunload] handler on one element. *)
Definition holdsData (input : Field) : bool :=
  if str_eqb (field_type input) (str "file")
  then (0 <? List.length (field_files input))%nat
  else negb (str_eqb (trim (field_value input)) (str "")).

(** [hasData], over the forms of the document and their [input], [select]
    and [textarea] elements. *)
Definition hasData (forms : list (list Field)) : bool :=
  existsb (fun form => existsb holdsData form) forms.

(** The [beforeunload] handler: the [returnValue] it sets, if any. *)
Definition beforeunload (forms : list (list Field)) : option jsstring :=
  if hasData forms
  then Some (str "You have unsaved changes. Are you sure you want to leave?")
  else None.

(* ================================================================== *)
(** * The estimator as the specification words it *)

Local Open Scope R_scope.

(** Per-pixel [(R + G + B) / 3]. *)
Definition luminance (p : Pixel) : R :=
  (IZR (red p) + IZR (green p) + IZR (blue p)) / 3.

Fixpoint Rsum (xs : list R) : R :=
  match xs with
  | [] => 0
  | x :: xs' => x + Rsum xs'
  end.

Definition mean (xs : list R) : R := Rsum xs / INR (List.length xs).

(** Population standard deviation around the mean. *)
Definition population_stddev (xs : list R) : R :=
  sqrt (Rsum (map (fun x => (x - mean xs) * (x - mean xs)) xs) / INR (List.length xs)).

Definition spec_brightness (pixels : list Pixel) : R := mean (map luminance pixels).

Definition spec_contrast (pixels : list Pixel) : R :=
  population_stddev (map luminance pixels).

Definition spec_brightnessScore (pixels : list Pixel) : R :=
  1 - Rabs (spec_brightness pixels - 127) / 127.

Definition spec_contrastScore (pixels : list Pixel) : R :=
  Rmin (spec_contrast pixels / 64) 1.

Definition spec_score (pixels : list Pixel) : R :=
  0.4 * spec_brightnessScore pixels + 0.6 * spec_contrastScore pixels.

(** A pixel of the constant gray 127, whatever its alpha. *)
Definition gray127 (p : Pixel) : Prop :=
  red p = 127%Z /\ green p = 127%Z /\ blue p = 127%Z.

(** A one-pixel raster of pure white. *)
Definition white_pixel : ImageData :=
  {| data := [255; 255; 255; 255]%Z; width := 1; height := 1 |}.

Local Close Scope R_scope.

(** ** The estimator's formula in the arithmetic of the engine

    The same formula with every operation carried out in the arithmetic at
    hand, rounded as that arithmetic rounds, and both sums taken in pixel
    order. *)
Section FormulaInArithmetic.
Context {num : Type} {number : JSNumber num}.
Local Open Scope js_scope.

(** [data.length / 4] for the raster of the given pixels. *)
Definition count_of (pixels : list Pixel) : num :=
  of_Z (Z.of_nat (4 * List.length pixels)) / of_Z 4.

Definition brightness_of (pixels : list Pixel) : num :=
  ordered_sum pixel_value pixels / count_of pixels.

Definition contrast_of (pixels : list Pixel) : num :=
  Math_sqrt
    (ordered_sum (fun p => Math_pow2 (pixel_value p - brightness_of pixels)) pixels
     / count_of pixels).

Definition score_of (pixels : list Pixel) : num :=
  (of_Z 1 - Math_abs (brightness_of pixels - of_Z 127) / of_Z 127) * dec 4 1
  + Math_min (contrast_of pixels / of_Z 64) (of_Z 1) * dec 6 1.
End FormulaInArithmetic.

(** The rational a double stands for; [None] for NaN and the infinities. *)
Definition binary64_to_Q (x : binary64) : option Q :=
  match FloatOps.Prim2SF x with
  | SpecFloat.S754_zero _ => Some 0%Q
  | SpecFloat.S754_finite sign m e =>
      Some ((if sign then - (1) else 1) * inject_Z (Z.pos m) * Qpower 2 e)%Q
  | _ => None
  end.

(** A 2 x 2 raster of two colours whose exact score is 0.8. *)
Definition two_tone : list Pixel :=
  [ {| red := 170; green := 170; blue := 169; alpha := 255 |};
    {| red := 170; green := 170; blue := 169; alpha := 255 |};
    {| red := 84; green := 84; blue := 85; alpha := 255 |};
    {| red := 84; green := 84; blue := 85; alpha := 255 |} ].

(** The raster of [n] pixels of one colour whose channels add up to [sum]. *)
Definition flat_raster (sum : Z) (n : nat) : list Pixel :=
  let r := Z.min sum 255 in
  let g := Z.min (sum - r) 255 in
  repeat {| red := r; green := g; blue := sum - r - g; alpha := 255 |} n.

(** A field of a type without a check, with two annotations under its
    parent. *)
Definition twice_annotated : Field :=
  {| field_type := str "email";
     field_name := str "contact";
     field_required := true;
     field_value := str "";
     field_files := [];
     parent_errors := [str "first"; str "second"];
     border_color := str "#e74c3c" |}.

(** Settles every comparison of a code unit whose range is known. *)
Ltac decide_code_unit :=
  repeat (match goal with
          | |- context [N.leb ?a ?b] => destruct (N.leb_spec a b)
          | |- context [N.eqb ?a ?b] => destruct (N.eqb_spec a b)
          end; try lia);
  try reflexivity.

(* ================================================================== *)
(** * Proofs: the image quality estimator *)

Section LoopAsFold.
Context {num : Type} {number : JSNumber num}.

Lemma rgba_app (xs ys : list Pixel) : rgba (xs ++ ys) = rgba xs ++ rgba ys.
Proof. unfold rgba. apply flat_map_app. Qed.

Lemma rgba_length (pixels : list Pixel) :
  List.length (rgba pixels) = (4 * List.length pixels)%nat.
Proof.
  induction pixels as [|p ps IH]; simpl; [reflexivity|].
  rewrite IH. lia.
Qed.

(** The four bytes of the pixel that starts at offset [4 * |pre|]. *)
Lemma nth_error_rgba (pre rest : list Pixel) (p : Pixel) (j : nat) :
  (j < 4)%nat ->
  nth_error (rgba (pre ++ p :: rest)) (4 * List.length pre + j) =
  nth_error (rgba_bytes p) j.
Proof.
  intros Hj.
  rewrite rgba_app.
  rewrite nth_error_app2 by (rewrite rgba_length; lia).
  rewrite rgba_length.
  replace (4 * List.length pre + j - 4 * List.length pre)%nat with j by lia.
  change (rgba (p :: rest)) with (rgba_bytes p ++ rgba rest).
  apply nth_error_app1. simpl. lia.
Qed.

(** The loop ends by its own test: any fuel that covers the distance to the
    end of the array gives the same result, and [data.length] always does. *)
Lemma for_step4_enough_fuel (body : nat -> num -> num) (len : nat) :
  forall (fuel1 fuel2 i : nat) (acc : num),
    (len - i <= fuel1)%nat -> (len - i <= fuel2)%nat ->
    for_step4 fuel1 i len body acc = for_step4 fuel2 i len body acc.
Proof.
  induction fuel1 as [|fuel1 IH]; intros fuel2 i acc H1 H2.
  - destruct fuel2 as [|fuel2]; [reflexivity|]. cbn [for_step4].
    destruct (Nat.ltb_spec i len); [lia|reflexivity].
  - cbn [for_step4]. destruct (Nat.ltb_spec i len) as [Hlt|Hge].
    + destruct fuel2 as [|fuel2]; [lia|]. cbn [for_step4].
      destruct (Nat.ltb_spec i len); [|lia]. apply IH; lia.
    + destruct fuel2 as [|fuel2]; [reflexivity|]. cbn [for_step4].
      destruct (Nat.ltb_spec i len); [lia|reflexivity].
Qed.

(** The stride-4 loop over a raster is a left fold over its pixels, and the
    fuel the definitions give it is enough. *)
Lemma for_step4_fold (body : nat -> num -> num) (g : Pixel -> num -> num)
  (rest : list Pixel) :
  forall (pre : list Pixel) (fuel : nat) (acc : num),
    (List.length rest <= fuel)%nat ->
    (forall pre' p rest' a,
        pre ++ rest = pre' ++ p :: rest' ->
        body (4 * List.length pre')%nat a = g p a) ->
    for_step4 fuel (4 * List.length pre) (4 * List.length (pre ++ rest)) body acc =
    fold_left (fun a p => g p a) rest acc.
Proof.
  induction rest as [|p rest IH]; intros pre fuel acc Hfuel Hbody.
  - rewrite app_nil_r. destruct fuel; simpl; [reflexivity|].
    rewrite Nat.ltb_irrefl. reflexivity.
  - destruct fuel as [|fuel]; [simpl in Hfuel; lia|].
    cbn [for_step4].
    replace (4 * List.length pre <? 4 * List.length (pre ++ p :: rest))%nat with true
      by (symmetry; apply Nat.ltb_lt; rewrite length_app; simpl; lia).
    rewrite (Hbody pre p rest acc eq_refl).
    replace (4 * List.length pre + 4)%nat with (4 * List.length (pre ++ [p]))%nat
      by (rewrite length_app; simpl; lia).
    replace (pre ++ p :: rest) with ((pre ++ [p]) ++ rest)
      by (rewrite <- app_assoc; reflexivity).
    simpl fold_left. apply IH.
    + simpl in Hfuel. lia.
    + intros pre' q rest' a Heq. apply (Hbody pre' q rest' a).
      rewrite <- Heq, <- app_assoc. reflexivity.
Qed.

(** The same, for a whole raster from offset 0. *)
Lemma for_step4_raster (body : nat -> num -> num) (g : Pixel -> num -> num)
  (pixels : list Pixel) (acc : num) :
  (forall pre p rest a,
      pixels = pre ++ p :: rest ->
      body (4 * List.length pre)%nat a = g p a) ->
  for_step4 (List.length (rgba pixels)) 0 (List.length (rgba pixels)) body acc =
  fold_left (fun a p => g p a) pixels acc.
Proof.
  intros Hbody. rewrite rgba_length.
  apply (for_step4_fold body g pixels [] (fuel:=4 * List.length pixels) acc).
  - lia.
  - exact Hbody.
Qed.

(** What the loop body reads at a pixel's offset: the three colour bytes,
    never the alpha byte. *)
Lemma pixelBrightness_at (pre rest : list Pixel) (p : Pixel) :
  pixelBrightness (rgba (pre ++ p :: rest)) (4 * List.length pre) = pixel_value p.
Proof.
  unfold pixelBrightness, at_index.
  pose proof (nth_error_rgba pre rest p (j:=0)) as H0.
  pose proof (nth_error_rgba pre rest p (j:=1)) as H1.
  pose proof (nth_error_rgba pre rest p (j:=2)) as H2.
  rewrite Nat.add_0_r in H0.
  rewrite H0, H1, H2 by lia. reflexivity.
Qed.

(** In any arithmetic, the doubles of the engine included, the first loop
    sums the pixel values of the raster in order. *)
Lemma brightness_as_sum (pixels : list Pixel) :
  brightness (rgba pixels) =
  div (ordered_sum pixel_value pixels) (pixelCount (rgba pixels)).
Proof.
  unfold brightness, ordered_sum. cbv zeta. f_equal.
  apply (for_step4_raster _ (fun p a => add a (pixel_value p))).
  intros pre p rest a ->. rewrite pixelBrightness_at. reflexivity.
Qed.

(** And the second loop sums, in order, the squared distances to the
    brightness the first one found. *)
Lemma contrast_as_sum (pixels : list Pixel) :
  contrast (rgba pixels) =
  Math_sqrt
    (div (ordered_sum
            (fun p => Math_pow2 (sub (pixel_value p) (brightness (rgba pixels))))
            pixels)
         (pixelCount (rgba pixels))).
Proof.
  unfold contrast, ordered_sum. cbv zeta. f_equal. f_equal.
  apply (for_step4_raster _
           (fun p a => add a (Math_pow2 (sub (pixel_value p) (brightness (rgba pixels)))))).
  intros pre p rest a ->. rewrite pixelBrightness_at. reflexivity.
Qed.
End LoopAsFold.

Local Open Scope R_scope.

(** ** In exact arithmetic *)

Lemma ideal_div_nonzero (x y : R) :
  y <> 0 -> div (num:=ideal) (Some x) (Some y) = Some (x / y).
Proof.
  intros Hy. simpl. unfold ideal_div.
  destruct (Req_dec_T y 0) as [E|_]; [contradiction|reflexivity].
Qed.

Lemma ideal_sqrt_nonneg (x : R) :
  0 <= x -> Math_sqrt (num:=ideal) (Some x) = Some (sqrt x).
Proof.
  intros Hx. simpl. unfold ideal_sqrt.
  destruct (Rlt_dec x 0) as [L|_]; [lra|reflexivity].
Qed.

Lemma ideal_pixel_value (p : Pixel) :
  pixel_value (num:=ideal) p = Some (luminance p).
Proof.
  unfold pixel_value. cbn [of_Z add ideal_number lift2].
  rewrite ideal_div_nonzero by lra. reflexivity.
Qed.

(** Accumulating finite terms from a finite start never leaves the reals. *)
Lemma ideal_fold_sum (g : Pixel -> ideal) (f : Pixel -> R) (pixels : list Pixel) :
  (forall p, g p = Some (f p)) ->
  forall acc : R,
    fold_left (fun (a : ideal) p => add a (g p)) pixels (Some acc) =
    Some (acc + Rsum (map f pixels)).
Proof.
  intros Hg. induction pixels as [|p ps IH]; intros acc; simpl.
  - f_equal. lra.
  - rewrite Hg. cbn [lift2]. rewrite IH. f_equal. lra.
Qed.

Lemma ideal_ordered_sum (g : Pixel -> ideal) (f : Pixel -> R) (pixels : list Pixel) :
  (forall p, g p = Some (f p)) ->
  ordered_sum g pixels = Some (Rsum (map f pixels)).
Proof.
  intros Hg. unfold ordered_sum. cbn [of_Z ideal_number].
  rewrite (ideal_fold_sum g f pixels Hg). f_equal. lra.
Qed.

Lemma Rsum_squares_nonneg (c : R) (xs : list R) :
  0 <= Rsum (map (fun x => (x - c) * (x - c)) xs).
Proof.
  induction xs as [|x xs IH]; simpl; [lra|].
  pose proof (Rle_0_sqr (x - c)) as Hsq. unfold Rsqr in Hsq. lra.
Qed.

Lemma INR_length_pos (A : Type) (xs : list A) : xs <> [] -> 0 < INR (List.length xs).
Proof.
  intros Hne. destruct xs as [|x xs]; [contradiction|].
  apply lt_0_INR. simpl. lia.
Qed.

Lemma ideal_pixelCount (pixels : list Pixel) :
  pixels <> [] ->
  pixelCount (num:=ideal) (rgba pixels) = Some (INR (List.length pixels)).
Proof.
  intros Hne. unfold pixelCount. cbn [of_Z ideal_number].
  rewrite ideal_div_nonzero by lra. f_equal.
  rewrite rgba_length, <- INR_IZR_INZ, mult_INR. simpl INR. field.
Qed.

Lemma ideal_brightness (pixels : list Pixel) :
  pixels <> [] ->
  brightness (num:=ideal) (rgba pixels) = Some (spec_brightness pixels).
Proof.
  intros Hne.
  rewrite brightness_as_sum, (ideal_ordered_sum _ luminance) by apply ideal_pixel_value.
  rewrite ideal_pixelCount by assumption.
  pose proof (INR_length_pos Hne) as Hpos.
  rewrite ideal_div_nonzero by lra.
  unfold spec_brightness, mean. rewrite length_map. reflexivity.
Qed.

Lemma ideal_contrast (pixels : list Pixel) :
  pixels <> [] ->
  contrast (num:=ideal) (rgba pixels) = Some (spec_contrast pixels).
Proof.
  intros Hne. rewrite contrast_as_sum, (ideal_brightness Hne).
  set (m := spec_brightness pixels).
  rewrite (ideal_ordered_sum _ (fun p => (luminance p - m) * (luminance p - m)))
    by (intros p; rewrite ideal_pixel_value; reflexivity).
  rewrite ideal_pixelCount by assumption.
  pose proof (INR_length_pos Hne) as Hpos.
  rewrite ideal_div_nonzero by lra.
  assert (Hsum : Rsum (map (fun p => (luminance p - m) * (luminance p - m)) pixels) =
                 Rsum (map (fun x => (x - m) * (x - m)) (map luminance pixels))).
  { rewrite map_map. reflexivity. }
  rewrite ideal_sqrt_nonneg.
  - unfold spec_contrast, population_stddev. fold (spec_brightness pixels). fold m.
    rewrite length_map, Hsum. reflexivity.
  - rewrite Hsum. pose proof (Rsum_squares_nonneg m (map luminance pixels)) as Hs.
    apply Rmult_le_pos; [lra|]. left. apply Rinv_0_lt_compat. exact Hpos.
Qed.

Lemma ideal_brightnessScore (pixels : list Pixel) :
  pixels <> [] ->
  brightnessScore (num:=ideal) (rgba pixels) = Some (spec_brightnessScore pixels).
Proof.
  intros Hne. unfold brightnessScore. rewrite (ideal_brightness Hne).
  cbn [of_Z sub Math_abs ideal_number lift1 lift2].
  rewrite ideal_div_nonzero by lra. reflexivity.
Qed.

Lemma ideal_contrastScore (pixels : list Pixel) :
  pixels <> [] ->
  contrastScore (num:=ideal) (rgba pixels) = Some (spec_contrastScore pixels).
Proof.
  intros Hne. unfold contrastScore. rewrite (ideal_contrast Hne).
  cbn [of_Z ideal_number]. rewrite ideal_div_nonzero by lra. reflexivity.
Qed.

Lemma dec_ideal (m : Z) (e : nat) : dec (num:=ideal) m e = Some (IZR m / 10 ^ e).
Proof. reflexivity. Qed.

(** The score, with the factors in the order the code multiplies them. *)
Lemma ideal_calculateImageQuality (pixels : list Pixel) (w h : Z) :
  pixels <> [] ->
  calculateImageQuality (num:=ideal) {| data := rgba pixels; width := w; height := h |} =
  Some (spec_brightnessScore pixels * 0.4 + spec_contrastScore pixels * 0.6).
Proof.
  intros Hne. unfold calculateImageQuality. cbn [data].
  rewrite (ideal_brightnessScore Hne), (ideal_contrastScore Hne), !dec_ideal.
  cbn [add mul ideal_number lift2]. f_equal. simpl pow. lra.
Qed.

(** In any arithmetic the score is the formula evaluated in that
    arithmetic. *)
Lemma calculateImageQuality_score_of {num : Type} {number : JSNumber num}
  (pixels : list Pixel) (w h : Z) :
  calculateImageQuality (num:=num) {| data := rgba pixels; width := w; height := h |} =
  score_of pixels.
Proof.
  unfold calculateImageQuality, brightnessScore, contrastScore, score_of. cbn [data].
  assert (Hcount : pixelCount (num:=num) (rgba pixels) = count_of pixels).
  { unfold pixelCount, count_of. rewrite rgba_length. reflexivity. }
  assert (Hb : brightness (num:=num) (rgba pixels) = brightness_of pixels).
  { rewrite brightness_as_sum, Hcount. reflexivity. }
  assert (Hc : contrast (num:=num) (rgba pixels) = contrast_of pixels).
  { rewrite contrast_as_sum, Hcount, Hb. reflexivity. }
  rewrite Hb, Hc. reflexivity.
Qed.

(** C1, as the code has it. On every non-empty RGBA buffer, in whatever
    arithmetic the engine computes (its doubles included),
    [calculateImageQuality] returns brightnessScore * 0.4 + contrastScore *
    0.6 with every operation carried out, and rounded, in that arithmetic:
    brightness is the sum over the pixels in order of (R+G+B)/3 divided by
    data.length/4, contrast is the square root of the sum over the pixels in
    order of the squared distance of (R+G+B)/3 to that brightness divided by
    data.length/4, brightnessScore is 1 - |brightness - 127| / 127 and
    contrastScore is min(contrast / 64, 1).  In exact arithmetic that value
    is 0.4 * brightnessScore + 0.6 * contrastScore with the mean and the
    population standard deviation. *)
Theorem calculateImageQuality_in_arithmetic (num : Type) (number : JSNumber num)
  (pixels : list Pixel) (w h : Z) :
  pixels <> [] ->
  calculateImageQuality (num:=num) {| data := rgba pixels; width := w; height := h |} =
  score_of pixels /\
  calculateImageQuality (num:=ideal) {| data := rgba pixels; width := w; height := h |} =
  Some (spec_score pixels).
Proof.
  intros Hne. split; [apply calculateImageQuality_score_of|].
  rewrite (ideal_calculateImageQuality w h Hne).
  unfold spec_score. f_equal. ring.
Qed.

Lemma calculateImageQuality_in_arithmetic_witness :
  calculateImageQuality (num:=binary64)
    {| data := rgba two_tone; width := 2; height := 2 |} = score_of two_tone /\
  calculateImageQuality (num:=ideal)
    {| data := rgba two_tone; width := 2; height := 2 |} = Some (spec_score two_tone).
Proof.
  apply (@calculateImageQuality_in_arithmetic binary64 binary64_number two_tone 2 2).
  discriminate.
Defined.

(** The exact score of the two-tone raster. *)
Lemma two_tone_spec_score : spec_score two_tone = 0.8.
Proof.
  assert (Hb : spec_brightness two_tone = 127).
  { unfold spec_brightness, mean, two_tone, luminance. simpl. lra. }
  assert (Hc : spec_contrast two_tone = 128 / 3).
  { unfold spec_contrast, population_stddev. fold (spec_brightness two_tone).
    rewrite Hb. unfold two_tone, luminance. simpl.
    match goal with
    | |- sqrt ?x = _ => replace x with ((128 / 3) * (128 / 3)) by lra
    end.
    apply sqrt_square. lra. }
  unfold spec_score, spec_brightnessScore, spec_contrastScore. rewrite Hb, Hc.
  replace (127 - 127) with 0 by lra. rewrite Rabs_R0.
  rewrite Rmin_left by lra. lra.
Qed.

(** ** Feedback bands *)

Lemma ideal_ge_true (x y : R) : ge (num:=ideal) (Some x) (Some y) = true <-> y <= x.
Proof.
  simpl. unfold ideal_ge. destruct (Rle_dec y x); split; intros; try discriminate; auto.
Qed.

Lemma ideal_ge_dec (x : R) (m : Z) :
  ge (num:=ideal) (Some x) (dec m 1) = true /\ IZR m / 10 <= x \/
  ge (num:=ideal) (Some x) (dec m 1) = false /\ x < IZR m / 10.
Proof.
  rewrite dec_ideal. replace (10 ^ 1) with 10 by (simpl; lra).
  destruct (ge (num:=ideal) (Some x) (Some (IZR m / 10))) eqn:E.
  - left. split; [reflexivity|]. apply ideal_ge_true. exact E.
  - right. split; [reflexivity|].
    destruct (Rlt_le_dec x (IZR m / 10)) as [L|G]; [exact L|].
    apply ideal_ge_true in G. congruence.
Qed.

(** C2. [generateQualityFeedback] answers Excellent iff s >= 0.8, Good iff
    0.6 <= s < 0.8, Fair iff 0.4 <= s < 0.6 and Poor iff s < 0.4: every
    band includes its lower bound. *)
Theorem generateQualityFeedback_bands (s : R) :
  (generateQualityFeedback (num:=ideal) (Some s) = str "Excellent image quality"
     <-> 0.8 <= s) /\
  (generateQualityFeedback (num:=ideal) (Some s) = str "Good image quality"
     <-> 0.6 <= s < 0.8) /\
  (generateQualityFeedback (num:=ideal) (Some s) =
     str "Fair image quality - consider retaking with better lighting"
     <-> 0.4 <= s < 0.6) /\
  (generateQualityFeedback (num:=ideal) (Some s) =
     str "Poor image quality - please retake with better lighting and focus"
     <-> s < 0.4).
Proof.
  unfold generateQualityFeedback.
  destruct (ideal_ge_dec s 8) as [[-> H8]|[-> H8]];
    [|destruct (ideal_ge_dec s 6) as [[-> H6]|[-> H6]];
      [|destruct (ideal_ge_dec s 4) as [[-> H4]|[-> H4]]]];
    repeat split; intros;
    try reflexivity; try lra;
    try (exfalso;
         match goal with
         | H : @eq jsstring _ _ |- _ => vm_compute in H; discriminate H
         end).
Qed.

(** C1 as worded fails on the doubles the engine computes: on the two-tone
    raster the formula over the exact mean and standard deviation is 0.8,
    rated Excellent, while the code returns the double just below the double
    0.8, whose exact value is less than 0.8 and which it rates Good. *)
Lemma calculateImageQuality_rounding_counterexample :
  let image := {| data := rgba two_tone; width := 2; height := 2 |} in
  spec_score two_tone = 0.8 /\
  (exists q : Q,
     binary64_to_Q (calculateImageQuality (num:=binary64) image) = Some q /\
     (q < 8 # 10)%Q) /\
  generateQualityFeedback (num:=ideal) (Some (spec_score two_tone)) =
    str "Excellent image quality" /\
  generateQualityFeedback (calculateImageQuality (num:=binary64) image) =
    str "Good image quality".
Proof.
  intros image. split; [exact two_tone_spec_score|]. split.
  { eexists. split; [vm_compute; reflexivity|]. vm_compute. reflexivity. }
  split; [|vm_compute; reflexivity].
  rewrite two_tone_spec_score. unfold generateQualityFeedback.
  destruct (ideal_ge_dec 0.8 8) as [[-> H8]|[-> H8]]; [reflexivity|lra].
Qed.

(** A NaN score, which only an empty buffer yields, is reported as Poor. *)
Lemma generateQualityFeedback_NaN :
  generateQualityFeedback (num:=ideal) NaN =
  str "Poor image quality - please retake with better lighting and focus".
Proof. reflexivity. Qed.

Lemma calculateImageQuality_empty (w h : Z) :
  calculateImageQuality (num:=ideal) {| data := []; width := w; height := h |} = NaN.
Proof.
  unfold calculateImageQuality, brightnessScore, brightness, pixelCount. cbn.
  unfold ideal_div.
  destruct (Req_dec_T 4 0) as [E|_]; [lra|].
  destruct (Req_dec_T (0 / 4) 0) as [_|N]; [reflexivity|].
  exfalso. apply N. lra.
Qed.

(** ** Constant gray *)

Lemma Rsum_const (c : R) (xs : list R) :
  (forall x, In x xs -> x = c) -> Rsum xs = c * INR (List.length xs).
Proof.
  induction xs as [|x xs IH]; intros Hall.
  - simpl. lra.
  - change (Rsum (x :: xs)) with (x + Rsum xs).
    change (List.length (x :: xs)) with (S (List.length xs)).
    rewrite S_INR, IH by (intros y Hy; apply Hall; right; exact Hy).
    rewrite (Hall x) by (left; reflexivity).
    lra.
Qed.

Lemma gray127_luminance (pixels : list Pixel) :
  Forall gray127 pixels -> forall x, In x (map luminance pixels) -> x = 127.
Proof.
  intros Hgray x Hin. apply in_map_iff in Hin as [p [<- Hp]].
  rewrite Forall_forall in Hgray. destruct (Hgray p Hp) as [Hr [Hg Hb]].
  unfold luminance. rewrite Hr, Hg, Hb. lra.
Qed.

Lemma gray127_brightness (pixels : list Pixel) :
  pixels <> [] -> Forall gray127 pixels -> spec_brightness pixels = 127.
Proof.
  intros Hne Hgray. unfold spec_brightness, mean.
  rewrite (@Rsum_const 127 _ (gray127_luminance Hgray)), length_map.
  pose proof (INR_length_pos Hne). field. lra.
Qed.

Lemma gray127_contrast (pixels : list Pixel) :
  pixels <> [] -> Forall gray127 pixels -> spec_contrast pixels = 0.
Proof.
  intros Hne Hgray. unfold spec_contrast, population_stddev.
  fold (spec_brightness pixels). rewrite (gray127_brightness Hne Hgray).
  rewrite (@Rsum_const 0).
  - rewrite Rmult_0_l. unfold Rdiv. rewrite Rmult_0_l. apply sqrt_0.
  - intros x Hin. apply in_map_iff in Hin as [y [<- Hy]].
    rewrite (gray127_luminance Hgray y Hy). lra.
Qed.

(** C7. On every non-empty buffer whose pixels all have R = G = B = 127 the
    estimator computes brightnessScore 1, contrast 0 and score 0.4, and
    [generateQualityFeedback] calls that score Fair. *)
Theorem gray127_score_is_fair (pixels : list Pixel) (w h : Z) :
  pixels <> [] ->
  Forall gray127 pixels ->
  let image := {| data := rgba pixels; width := w; height := h |} in
  brightnessScore (num:=ideal) (data image) = Some 1 /\
  contrast (num:=ideal) (data image) = Some 0 /\
  calculateImageQuality (num:=ideal) image = Some 0.4 /\
  generateQualityFeedback (calculateImageQuality (num:=ideal) image) =
  str "Fair image quality - consider retaking with better lighting".
Proof.
  intros Hne Hgray image. subst image. cbn [data].
  assert (Hbs : spec_brightnessScore pixels = 1).
  { unfold spec_brightnessScore. rewrite (gray127_brightness Hne Hgray).
    replace (127 - 127) with 0 by lra. rewrite Rabs_R0. lra. }
  assert (Hcs : spec_contrastScore pixels = 0).
  { unfold spec_contrastScore. rewrite (gray127_contrast Hne Hgray).
    replace (0 / 64) with 0 by lra. apply Rmin_left. lra. }
  assert (Hscore : calculateImageQuality (num:=ideal)
                     {| data := rgba pixels; width := w; height := h |} = Some 0.4).
  { rewrite (ideal_calculateImageQuality w h Hne), Hbs, Hcs. f_equal. lra. }
  repeat split.
  - rewrite (ideal_brightnessScore Hne), Hbs. reflexivity.
  - rewrite (ideal_contrast Hne), (gray127_contrast Hne Hgray). reflexivity.
  - exact Hscore.
  - rewrite Hscore. unfold generateQualityFeedback.
    destruct (ideal_ge_dec 0.4 8) as [[-> H8]|[-> H8]]; [lra|].
    destruct (ideal_ge_dec 0.4 6) as [[-> H6]|[-> H6]]; [lra|].
    destruct (ideal_ge_dec 0.4 4) as [[-> H4]|[-> H4]]; [reflexivity|lra].
Qed.

Lemma gray127_score_is_fair_witness :
  let pixels := [ {| red := 127; green := 127; blue := 127; alpha := 255 |};
                  {| red := 127; green := 127; blue := 127; alpha := 0 |} ] in
  let image := {| data := rgba pixels; width := 2; height := 1 |} in
  calculateImageQuality (num:=ideal) image = Some 0.4 /\
  generateQualityFeedback (calculateImageQuality (num:=ideal) image) =
  str "Fair image quality - consider retaking with better lighting".
Proof.
  intros pixels image.
  assert (Hne : pixels <> []) by discriminate.
  assert (Hgray : Forall gray127 pixels).
  { repeat constructor. }
  exact (proj2 (proj2 (@gray127_score_is_fair pixels 2 1 Hne Hgray))).
Defined.

(** The engine's doubles agree on such buffers: the score is the double
    0.4 itself, which meets the Fair threshold it is compared with. *)
Example gray127_binary64 :
  forall n : nat, In n [1; 2; 3; 7; 64; 640]%nat ->
  let image := {| data := rgba (repeat {| red := 127; green := 127; blue := 127;
                                         alpha := 255 |} n);
                  width := Z.of_nat n; height := 1 |} in
  PrimFloat.eqb (calculateImageQuality (num:=binary64) image) (dec 4 1) = true /\
  generateQualityFeedback (calculateImageQuality (num:=binary64) image) =
  str "Fair image quality - consider retaking with better lighting".
Proof.
  intros n Hn. simpl in Hn.
  repeat (destruct Hn as [<-|Hn]; [vm_compute; split; reflexivity|]).
  contradiction.
Qed.

(** ** The range of the score *)

Lemma Rsum_bounds (a b : R) (xs : list R) :
  (forall x, In x xs -> a <= x <= b) ->
  a * INR (List.length xs) <= Rsum xs <= b * INR (List.length xs).
Proof.
  induction xs as [|x xs IH]; intros Hall.
  - simpl. lra.
  - change (Rsum (x :: xs)) with (x + Rsum xs).
    change (List.length (x :: xs)) with (S (List.length xs)).
    rewrite S_INR.
    assert (Hx : a <= x <= b) by (apply Hall; left; reflexivity).
    assert (Hxs : a * INR (List.length xs) <= Rsum xs <= b * INR (List.length xs))
      by (apply IH; intros y Hy; apply Hall; right; exact Hy).
    lra.
Qed.

Lemma luminance_range (p : Pixel) : channels_in_range p -> 0 <= luminance p <= 255.
Proof.
  intros [[Hr0 Hr1] [[Hg0 Hg1] [Hb0 Hb1]]]. unfold luminance.
  apply IZR_le in Hr0, Hr1, Hg0, Hg1, Hb0, Hb1. lra.
Qed.

Lemma spec_brightness_range (pixels : list Pixel) :
  pixels <> [] -> Forall channels_in_range pixels ->
  0 <= spec_brightness pixels <= 255.
Proof.
  intros Hne Hrange. unfold spec_brightness, mean.
  assert (Hall : forall x, In x (map luminance pixels) -> 0 <= x <= 255).
  { intros x Hin. apply in_map_iff in Hin as [p [<- Hp]].
    apply luminance_range. rewrite Forall_forall in Hrange. auto. }
  pose proof (@Rsum_bounds 0 255 _ Hall) as [Hlo Hhi].
  rewrite length_map in *.
  pose proof (INR_length_pos Hne) as Hpos.
  set (n := INR (List.length pixels)) in *.
  set (t := Rsum (map luminance pixels)) in *.
  split.
  - apply Rmult_le_reg_r with n; [exact Hpos|].
    unfold Rdiv. rewrite Rmult_assoc, Rinv_l by lra. lra.
  - apply Rmult_le_reg_r with n; [exact Hpos|].
    unfold Rdiv. rewrite Rmult_assoc, Rinv_l by lra. lra.
Qed.

Lemma spec_contrastScore_range (pixels : list Pixel) :
  0 <= spec_contrastScore pixels <= 1.
Proof.
  unfold spec_contrastScore, spec_contrast, population_stddev. split.
  - apply Rmin_glb; [|lra].
    apply Rmult_le_pos; [apply sqrt_pos|lra].
  - apply Rmin_r.
Qed.

(** What does hold of every raster of bytes: the score never exceeds 1, and
    falls below 0 by at most 0.4/127. *)
Lemma calculateImageQuality_range (pixels : list Pixel) (w h : Z) :
  pixels <> [] -> Forall channels_in_range pixels ->
  exists s : R,
    calculateImageQuality (num:=ideal) {| data := rgba pixels; width := w; height := h |} =
    Some s /\ - (0.4 / 127) <= s <= 1.
Proof.
  intros Hne Hrange. eexists. split; [apply (ideal_calculateImageQuality w h Hne)|].
  pose proof (spec_brightness_range Hne Hrange) as [Hb0 Hb1].
  pose proof (spec_contrastScore_range pixels) as [Hc0 Hc1].
  unfold spec_brightnessScore.
  assert (Habs : 0 <= Rabs (spec_brightness pixels - 127) <= 128).
  { split; [apply Rabs_pos|]. apply Rabs_le. lra. }
  set (a := Rabs (spec_brightness pixels - 127)) in *.
  set (c := spec_contrastScore pixels) in *.
  lra.
Qed.

(** C3, at the buffer where it fails: a single white pixel scores
    -0.4/127, below the interval [0,1] the score is meant to lie in. *)
Theorem calculateImageQuality_white_pixel :
  calculateImageQuality (num:=ideal) white_pixel = Some (- (0.4 / 127)) /\
  - (0.4 / 127) < 0.
Proof.
  split; [|lra].
  change white_pixel with
    {| data := rgba [ {| red := 255; green := 255; blue := 255; alpha := 255 |} ];
       width := 1; height := 1 |}.
  set (pixels := [ {| red := 255; green := 255; blue := 255; alpha := 255 |} ]).
  assert (Hne : pixels <> []) by discriminate.
  rewrite (ideal_calculateImageQuality 1 1 Hne). f_equal.
  assert (Hb : spec_brightness pixels = 255).
  { unfold spec_brightness, mean, pixels, luminance. simpl. lra. }
  assert (Hc : spec_contrast pixels = 0).
  { unfold spec_contrast, population_stddev. fold (spec_brightness pixels).
    rewrite Hb. unfold pixels, luminance. simpl.
    replace ((_ + 0) / 1) with 0 by lra. apply sqrt_0. }
  unfold spec_brightnessScore, spec_contrastScore. rewrite Hb, Hc.
  replace (255 - 127) with 128 by lra.
  rewrite Rabs_right by lra.
  replace (0 / 64) with 0 by lra. rewrite Rmin_left by lra. lra.
Qed.

(** The engine's doubles give the same verdict on that buffer. *)
Example white_pixel_binary64 :
  PrimFloat.ltb (calculateImageQuality (num:=binary64) white_pixel) (of_Z 0) = true.
Proof. vm_compute. reflexivity. Qed.

(** The decimal literals of the script, as [dec] builds them for doubles,
    are the doubles the literals denote. *)
Module Binary64Literals.
Import PrimFloat.
#[local] Set Warnings "-inexact-float".

Example dec_is_the_literal :
  PrimFloat.eqb (dec 4 1) 0.4 = true /\
  PrimFloat.eqb (dec 6 1) 0.6 = true /\
  PrimFloat.eqb (dec 8 1) 0.8 = true.
Proof. vm_compute. repeat split. Qed.
End Binary64Literals.

Local Close Scope R_scope.

(* ================================================================== *)
(** * Proofs: the validators *)

Lemma str_eqb_eq (a b : jsstring) : str_eqb a b = true <-> a = b.
Proof.
  revert b. induction a as [|x a IH]; intros [|y b]; simpl; split; intros H;
    try reflexivity; try discriminate.
  - apply andb_true_iff in H as [Hxy Hab].
    apply N.eqb_eq in Hxy. apply IH in Hab. congruence.
  - injection H as -> ->. rewrite N.eqb_refl. simpl. apply IH. reflexivity.
Qed.

Lemma str_eqb_neq (a b : jsstring) : str_eqb a b = false <-> a <> b.
Proof.
  split.
  - intros H E. apply str_eqb_eq in E. congruence.
  - intros H. destruct (str_eqb a b) eqn:E; [|reflexivity].
    apply str_eqb_eq in E. contradiction.
Qed.

Lemma includes_In (xs : list jsstring) (x : jsstring) :
  includes xs x = true <-> In x xs.
Proof.
  unfold includes. rewrite existsb_exists. split.
  - intros [y [Hy E]]. apply str_eqb_eq in E. subst. exact Hy.
  - intros H. exists x. split; [exact H|]. apply str_eqb_eq. reflexivity.
Qed.

(** C4. [validateImageFile] accepts a file iff its MIME type is image/jpeg,
    image/jpg or image/png and its size is at most 5*1024*1024 bytes: any
    other type is refused whatever the size, 5*1024*1024 + 1 bytes or more
    are refused whatever the type, and exactly 5*1024*1024 bytes of a listed
    type are accepted. *)
Theorem validateImageFile_spec (file : File) :
  let listed := In (file_type file)
                  [str "image/jpeg"; str "image/jpg"; str "image/png"] in
  (validateImageFile file = true <->
   listed /\ (file_size file <= 5 * 1024 * 1024)%Z) /\
  (~ listed -> validateImageFile file = false) /\
  ((5 * 1024 * 1024 + 1 <= file_size file)%Z -> validateImageFile file = false) /\
  (listed -> file_size file = (5 * 1024 * 1024)%Z -> validateImageFile file = true).
Proof.
  intros listed.
  assert (Hiff : validateImageFile file = true <->
                 listed /\ (file_size file <= 5 * 1024 * 1024)%Z).
  { unfold validateImageFile, listed. cbv zeta.
    destruct (includes _ (file_type file)) eqn:Hin; cbn [negb].
    - apply includes_In in Hin.
      destruct (Z.gtb_spec (file_size file) (5 * 1024 * 1024)) as [Hgt|Hle].
      + split; [discriminate|]. intros [_ Hle]. lia.
      + split; [|reflexivity]. intros _. split; [exact Hin|exact Hle].
    - split; [discriminate|]. intros [Hl _].
      apply includes_In in Hl. congruence. }
  split; [exact Hiff|]. repeat split.
  - intros Hnot. apply not_true_is_false. intros E.
    apply Hiff in E as [Hl _]. contradiction.
  - intros Hbig. apply not_true_is_false. intros E.
    apply Hiff in E as [_ Hle]. lia.
  - intros Hl Hsz. apply Hiff. split; [exact Hl|]. lia.
Qed.

(** ** Field validation *)

Lemma validateField_fst (field : Field) :
  fst (validateField field) = fst (checkField field).
Proof.
  unfold validateField. destruct (checkField field) as [[|] message]; reflexivity.
Qed.

Lemma validateField_valid (field : Field) :
  fst (checkField field) = true ->
  validateField field = (true, clearFieldError field).
Proof.
  unfold validateField. destruct (checkField field) as [[|] message]; simpl;
    [reflexivity|discriminate].
Qed.

Lemma checkField_full_name (field : Field) :
  field_type field = str "text" ->
  field_name field = str "full_name" ->
  let value := trim (field_value field) in
  fst (checkField field) =
  negb (List.length value <? 2)%nat && name_pattern_test value.
Proof.
  intros Htype Hname value. unfold checkField. rewrite Htype, Hname.
  change (str_eqb (str "text") (str "text")) with true.
  change (str_eqb (str "full_name") (str "full_name")) with true.
  cbv iota zeta. fold value.
  destruct (List.length value <? 2)%nat; [reflexivity|].
  destruct (name_pattern_test value); reflexivity.
Qed.

Lemma name_pattern_test_spec (s : jsstring) :
  name_pattern_test s = true <-> s <> [] /\ letters_and_whitespace s.
Proof.
  unfold name_pattern_test, letters_and_whitespace.
  destruct s as [|c s].
  - split; [discriminate|]. intros [H _]. contradiction.
  - rewrite forallb_forall, Forall_forall. split.
    + intros H. split; [discriminate|]. intros x Hx.
      apply orb_true_iff. apply H. exact Hx.
    + intros [_ H] x Hx. apply orb_true_iff. apply H. exact Hx.
Qed.

(** C5, as the code has it. The name validator reports valid iff the value
    with its leading and trailing whitespace removed has length at least 2
    and consists only of ASCII letters and whitespace; "Jane Doe" is valid,
    "J" and "Jane123" are not. *)
Theorem validateField_full_name (field : Field) :
  field_type field = str "text" ->
  field_name field = str "full_name" ->
  (fst (validateField field) = true <-> name_rule (trim (field_value field))) /\
  fst (validateField (input_element "text" "full_name" "Jane Doe")) = true /\
  fst (validateField (input_element "text" "full_name" "J")) = false /\
  fst (validateField (input_element "text" "full_name" "Jane123")) = false.
Proof.
  intros Htype Hname. split; [|repeat split; reflexivity].
  rewrite validateField_fst, (checkField_full_name field Htype Hname).
  cbv zeta. unfold name_rule.
  rewrite andb_true_iff, negb_true_iff, Nat.ltb_ge, name_pattern_test_spec.
  split.
  - intros [Hlen [_ Hall]]. split; assumption.
  - intros [Hlen Hall]. repeat split; try assumption.
    intros E. rewrite E in Hlen. simpl in Hlen. lia.
Qed.

Lemma validateField_full_name_witness :
  fst (validateField (input_element "text" "full_name" "Ada Lovelace")) = true <->
  name_rule (trim (str "Ada Lovelace")).
Proof.
  exact (proj1 (@validateField_full_name
                  (input_element "text" "full_name" "Ada Lovelace")
                  eq_refl eq_refl)).
Defined.

(** C5 as worded fails: "J " has length 2 and holds a letter and a space
    only, yet the validator, which trims first, rejects it. *)
Lemma full_name_untrimmed_counterexample :
  name_rule (field_value (input_element "text" "full_name" "J ")) /\
  fst (validateField (input_element "text" "full_name" "J ")) = false.
Proof.
  split; [|reflexivity].
  unfold name_rule, letters_and_whitespace. cbn. split; [lia|].
  constructor; [left; reflexivity|].
  constructor; [right; reflexivity|].
  constructor.
Qed.

(** ** The age field *)

Lemma decimal_digit_range (c : N) :
  is_decimal_digit c = true <-> (48 <= c <= 57)%N.
Proof.
  unfold is_decimal_digit. rewrite andb_true_iff, !N.leb_le. reflexivity.
Qed.

Lemma decimal_digit_not_space (c : N) :
  is_decimal_digit c = true -> is_js_space c = false.
Proof.
  intros H. apply decimal_digit_range in H. unfold is_js_space. decide_code_unit.
Qed.

Lemma decimal_digit_value (c : N) :
  is_decimal_digit c = true -> digit_value 10 c = Some (Z.of_N c - 48)%Z.
Proof.
  intros H. apply decimal_digit_range in H. unfold digit_value.
  destruct (N.leb_spec 48 c); [|lia]. destruct (N.leb_spec c 57); [|lia].
  cbn [andb]. destruct (Z.ltb_spec (Z.of_N c - 48) 10); [reflexivity|lia].
Qed.

Lemma leading_digits_all (ds : jsstring) :
  forallb is_decimal_digit ds = true ->
  leading_digits 10 ds = map (fun c => Z.of_N c - 48)%Z ds.
Proof.
  induction ds as [|c ds IH]; intros Hall; [reflexivity|].
  simpl in Hall. apply andb_true_iff in Hall as [Hc Hds].
  simpl. rewrite (decimal_digit_value c Hc), (IH Hds). reflexivity.
Qed.

Lemma digits_value_numeral (ds : jsstring) :
  digits_value 10 (map (fun c => Z.of_N c - 48)%Z ds) = numeral_value ds.
Proof.
  unfold digits_value, numeral_value. generalize 0%Z.
  induction ds as [|c ds IH]; intros acc; [reflexivity|].
  simpl. apply IH.
Qed.

(** After the sign, a run of decimal digits is read whole, in radix 10. *)
Lemma parse_magnitude_numeral (ds : jsstring) :
  ds <> [] -> forallb is_decimal_digit ds = true ->
  parse_magnitude ds = Some (numeral_value ds).
Proof.
  intros Hne Hall. unfold parse_magnitude.
  assert (Hradix :
    match ds with
    | c0 :: c1 :: s' =>
        if ((c0 =? 48) && ((c1 =? 120) || (c1 =? 88)))%N then (16%Z, s')
        else (10%Z, ds)
    | _ => (10%Z, ds)
    end = (10%Z, ds)).
  { destruct ds as [|c0 [|c1 s']]; try reflexivity.
    simpl in Hall. apply andb_true_iff in Hall as [_ Hall].
    apply andb_true_iff in Hall as [Hc1 _]. apply decimal_digit_range in Hc1.
    destruct (N.eqb_spec c1 120); [lia|]. destruct (N.eqb_spec c1 88); [lia|].
    rewrite andb_false_r. reflexivity. }
  rewrite Hradix. cbv beta iota. rewrite (leading_digits_all ds Hall).
  destruct ds as [|c ds]; [contradiction|].
  cbn [map]. rewrite <- digits_value_numeral. reflexivity.
Qed.

(** [parseInt] reads a decimal numeral as the integer it denotes. *)
Lemma parseInt_numeral (s : jsstring) (n : Z) :
  denotes_integer s n -> parseInt s = Some n.
Proof.
  intros H. destruct H as [ds Hne Hall|ds Hne Hall|ds Hne Hall]; unfold parseInt.
  - destruct ds as [|c ds]; [contradiction|].
    pose proof Hall as Hc. simpl in Hc. apply andb_true_iff in Hc as [Hc _].
    cbn [trimStart]. rewrite (decimal_digit_not_space c Hc).
    apply decimal_digit_range in Hc.
    destruct (N.eqb_spec c 45); [lia|]. destruct (N.eqb_spec c 43); [lia|].
    rewrite parse_magnitude_numeral by assumption. f_equal; lia.
  - change (trimStart (45%N :: ds)) with (45%N :: ds). cbn [N.eqb Pos.eqb].
    rewrite parse_magnitude_numeral by assumption. f_equal; lia.
  - change (trimStart (43%N :: ds)) with (43%N :: ds). cbn [N.eqb Pos.eqb].
    rewrite parse_magnitude_numeral by assumption. f_equal; lia.
Qed.

Lemma checkField_age (field : Field) :
  field_type field = str "number" ->
  field_name field = str "age" ->
  fst (checkField field) =
  match parseInt (trim (field_value field)) with
  | None => false
  | Some age => negb ((age <? 16) || (age >? 100))%Z
  end.
Proof.
  intros Htype Hname. unfold checkField. rewrite Htype, Hname.
  change (str_eqb (str "number") (str "text")) with false.
  change (str_eqb (str "number") (str "number")) with true.
  change (str_eqb (str "age") (str "age")) with true.
  cbv iota.
  destruct (parseInt (trim (field_value field))) as [age|]; [|reflexivity].
  destruct ((age <? 16) || (age >? 100))%Z; reflexivity.
Qed.

(** C6, as the code has it. The age validator reports valid iff [parseInt]
    of the trimmed value, the integer read from its longest leading run of
    sign and digits, exists and lies in [16, 100]; so a value that is a
    decimal integer numeral is valid iff that integer lies in [16, 100].
    16 and 100 are valid; 15, 101 and "abc" are not. *)
Theorem validateField_age (field : Field) :
  field_type field = str "number" ->
  field_name field = str "age" ->
  (fst (validateField field) = true <->
   exists age : Z,
     parseInt (trim (field_value field)) = Some age /\ (16 <= age <= 100)%Z) /\
  (forall n : Z,
     denotes_integer (trim (field_value field)) n ->
     (fst (validateField field) = true <-> (16 <= n <= 100)%Z)) /\
  fst (validateField (input_element "number" "age" "16")) = true /\
  fst (validateField (input_element "number" "age" "100")) = true /\
  fst (validateField (input_element "number" "age" "15")) = false /\
  fst (validateField (input_element "number" "age" "101")) = false /\
  fst (validateField (input_element "number" "age" "abc")) = false.
Proof.
  intros Htype Hname.
  assert (Hcode : fst (validateField field) = true <->
                  exists age : Z,
                    parseInt (trim (field_value field)) = Some age /\
                    (16 <= age <= 100)%Z).
  { rewrite validateField_fst, (checkField_age field Htype Hname).
    destruct (parseInt (trim (field_value field))) as [age|].
    - rewrite negb_true_iff, orb_false_iff, Z.ltb_ge, Z.gtb_ltb, Z.ltb_ge. split.
      + intros [Hlo Hhi]. exists age. split; [reflexivity|lia].
      + intros [a [Ha Hrange]]. injection Ha as ->. lia.
    - split; [discriminate|]. intros [a [Ha _]]. discriminate. }
  split; [exact Hcode|]. split; [|repeat split; reflexivity].
  intros n Hn. rewrite Hcode, (parseInt_numeral Hn). split.
  - intros [a [Ha Hrange]]. injection Ha as ->. exact Hrange.
  - intros Hrange. exists n. split; [reflexivity|exact Hrange].
Qed.

Lemma validateField_age_witness :
  fst (validateField (input_element "number" "age" " 42 ")) = true <->
  exists age : Z, parseInt (trim (str " 42 ")) = Some age /\ (16 <= age <= 100)%Z.
Proof.
  exact (proj1 (@validateField_age (input_element "number" "age" " 42 ")
                  eq_refl eq_refl)).
Defined.

(** C6 as worded fails: "16.5" is not an integer, yet the validator, which
    reads the leading "16", accepts it. *)
Lemma age_fraction_counterexample :
  fst (validateField (input_element "number" "age" "16.5")) = true /\
  ~ age_rule (field_value (input_element "number" "age" "16.5")).
Proof.
  split; [reflexivity|].
  intros [n [Hn _]].
  change (trim (field_value (input_element "number" "age" "16.5")))
    with [49; 54; 46; 53]%N in Hn.
  inversion Hn as [ds Hne Hall|ds Hne Hall|ds Hne Hall]; subst;
    vm_compute in Hall; discriminate Hall.
Qed.

(** ** Fields without a check *)

Lemma checkField_unchecked (field : Field) :
  unchecked field -> checkField field = (true, str "").
Proof.
  intros [[Htype [Hn1 Hn2]]|[[Htype Hname]|[[Htype Hfiles]|[Ht1 [Ht2 [Ht3 Ht4]]]]]];
    unfold checkField.
  - rewrite Htype. change (str_eqb (str "text") (str "text")) with true. cbv iota.
    rewrite (proj2 (str_eqb_neq _ _) Hn1), (proj2 (str_eqb_neq _ _) Hn2).
    reflexivity.
  - rewrite Htype.
    change (str_eqb (str "number") (str "text")) with false.
    change (str_eqb (str "number") (str "number")) with true. cbv iota.
    rewrite (proj2 (str_eqb_neq _ _) Hname). reflexivity.
  - rewrite Htype, Hfiles. reflexivity.
  - rewrite (proj2 (str_eqb_neq _ _) Ht1), (proj2 (str_eqb_neq _ _) Ht2),
      (proj2 (str_eqb_neq _ _) Ht3), (proj2 (str_eqb_neq _ _) Ht4).
    reflexivity.
Qed.

(** The script never leaves two annotations under one parent. *)
Lemma showFieldError_one_annotation (field : Field) (message : jsstring) :
  (List.length (parent_errors field) <= 1)%nat ->
  List.length (parent_errors (showFieldError field message)) = 1%nat.
Proof.
  intros H. unfold showFieldError, clearFieldError. cbn.
  destruct (parent_errors field) as [|e [|e' rest]]; simpl in *; try reflexivity; lia.
Qed.

Lemma clearFieldError_no_annotation (field : Field) :
  (List.length (parent_errors field) <= 1)%nat ->
  parent_errors (clearFieldError field) = [].
Proof.
  intros H. unfold clearFieldError. cbn.
  destruct (parent_errors field) as [|e [|e' rest]]; simpl in *; try reflexivity; lia.
Qed.

Lemma validateField_one_annotation (field : Field) :
  (List.length (parent_errors field) <= 1)%nat ->
  (List.length (parent_errors (snd (validateField field))) <= 1)%nat.
Proof.
  intros H. unfold validateField.
  destruct (checkField field) as [[|] message]; cbn [negb snd].
  - rewrite (clearFieldError_no_annotation field H). simpl. lia.
  - rewrite (showFieldError_one_annotation field message H). lia.
Qed.

(** C10, as the code has it. On a field of a (type, name) combination it
    has no check for, [validateField] returns valid whatever the value, an
    empty value of a required field included, and clears the error
    annotation the way [clearFieldError] does: the border colour is reset
    and the first annotation found under the field's parent is removed.
    When the parent holds at most one annotation, which is all the script
    itself ever leaves there, none remains. *)
Theorem validateField_unchecked (field : Field) :
  unchecked field ->
  validateField field = (true, clearFieldError field) /\
  border_color (snd (validateField field)) = str "" /\
  parent_errors (snd (validateField field)) = tl (parent_errors field) /\
  ((List.length (parent_errors field) <= 1)%nat ->
   parent_errors (snd (validateField field)) = []).
Proof.
  intros Hun.
  assert (Hvalid : validateField field = (true, clearFieldError field)).
  { apply validateField_valid. rewrite (checkField_unchecked Hun). reflexivity. }
  rewrite Hvalid. repeat split.
  intros Hone. apply (clearFieldError_no_annotation field Hone).
Qed.

Lemma validateField_unchecked_witness :
  let field := {| field_type := str "email";
                  field_name := str "contact";
                  field_required := true;
                  field_value := str "";
                  field_files := [];
                  parent_errors := [str "This field is required"];
                  border_color := str "#e74c3c" |} in
  validateField field = (true, clearFieldError field) /\
  border_color (snd (validateField field)) = str "" /\
  parent_errors (snd (validateField field)) = tl (parent_errors field) /\
  ((List.length (parent_errors field) <= 1)%nat ->
   parent_errors (snd (validateField field)) = []).
Proof.
  intros field. apply (@validateField_unchecked field).
  right. right. right.
  repeat split; intros E; vm_compute in E; discriminate E.
Defined.

(** C10 as worded fails: with two annotations under the parent of a field
    without a check, [validateField] returns valid and removes the first
    one only; the second is still there. *)
Lemma validateField_second_annotation_counterexample :
  unchecked twice_annotated /\
  fst (validateField twice_annotated) = true /\
  parent_errors (snd (validateField twice_annotated)) = [str "second"].
Proof.
  split; [|split; reflexivity].
  right. right. right.
  repeat split; intros E; vm_compute in E; discriminate E.
Qed.

(* ================================================================== *)
(** * Proofs: the verification call *)

Section VerifyProofs.
Variable Json : Type.
Variable fetch : Request -> Completion (Response Json).
Variable imageFile : File.

(** What [verifyFaceAPI] does, by what the network delivers. *)
Lemma verifyFaceAPI_cases :
  verifyFaceAPI fetch imageFile =
  match fetch (verify_request imageFile) with
  | Throw e => ([ConsoleError (str "API Error:") e], Throw e)
  | Normal r =>
      if ok r then
        match json r with
        | Normal v => ([], Normal v)
        | Throw e => ([ConsoleError (str "API Error:") e], Throw e)
        end
      else ([ConsoleError (str "API Error:") (new_Error (str "Verification failed"))],
            Throw (new_Error (str "Verification failed")))
  end.
Proof.
  unfold verifyFaceAPI, verify_request, try_catch, bind.
  destruct (fetch _) as [r|e]; [|reflexivity].
  destruct (ok r); cbn [negb]; [|reflexivity].
  destruct (json r); reflexivity.
Qed.

(** C9, as the code has it. [verifyFaceAPI] throws iff the fetch fails, the
    response is not ok, or the body does not parse as JSON; whenever it
    throws, it has logged that same error to the console first and nothing
    else; otherwise it logs nothing and returns the parsed body. *)
Theorem verifyFaceAPI_throws_iff :
  (throws (snd (verifyFaceAPI fetch imageFile)) <->
   fetch_fails fetch imageFile \/ response_not_ok fetch imageFile \/
   body_not_json fetch imageFile) /\
  (forall e, snd (verifyFaceAPI fetch imageFile) = Throw e ->
             fst (verifyFaceAPI fetch imageFile) = [ConsoleError (str "API Error:") e]) /\
  (forall r v, fetch (verify_request imageFile) = Normal r -> ok r = true ->
               json r = Normal v ->
               verifyFaceAPI fetch imageFile = ([], Normal v)) /\
  (response_not_ok fetch imageFile ->
   snd (verifyFaceAPI fetch imageFile) = Throw (new_Error (str "Verification failed"))).
Proof.
  rewrite verifyFaceAPI_cases.
  unfold throws, fetch_fails, response_not_ok, body_not_json.
  destruct (fetch (verify_request imageFile)) as [r|e0].
  - destruct (ok r) eqn:Hok.
    + destruct (json r) as [v|e1] eqn:Hjson; cbn [fst snd]; repeat split.
      * intros [e He]. discriminate He.
      * intros [[e He]|[[r' [Hr Hf]]|[r' [e [Hr [_ Hj]]]]]]; try discriminate.
        -- injection Hr as <-. congruence.
        -- injection Hr as <-. congruence.
      * intros e He. discriminate He.
      * intros r' v' Hr _ Hj. injection Hr as <-. congruence.
      * intros [r' [Hr Hf]]. injection Hr as <-. congruence.
      * intros _. right. right. exists r, e1. auto.
      * intros _. exists e1. reflexivity.
      * intros e He. injection He as <-. reflexivity.
      * intros r' v' Hr _ Hj. injection Hr as <-. congruence.
      * intros [r' [Hr Hf]]. injection Hr as <-. congruence.
    + cbn [fst snd]. repeat split.
      * intros _. right. left. exists r. auto.
      * intros _. eexists. reflexivity.
      * intros e He. injection He as <-. reflexivity.
      * intros r' v' Hr Hok' _. injection Hr as <-. congruence.
  - cbn [fst snd]. repeat split.
    + intros _. left. exists e0. reflexivity.
    + intros _. exists e0. reflexivity.
    + intros e He. injection He as <-. reflexivity.
    + intros r v Hr. discriminate Hr.
    + intros [r [Hr _]]. discriminate Hr.
Qed.
End VerifyProofs.

(** C9 as worded fails: the fetch succeeds and the response is ok, yet the
    call throws, because the body is not JSON. *)
Lemma verifyFaceAPI_not_json_counterexample :
  let file := new_File [] (str "face.jpg") (str "image/jpeg") in
  throws (snd (verifyFaceAPI not_json_server file)) /\
  ~ (fetch_fails not_json_server file \/ response_not_ok not_json_server file).
Proof.
  intros file. split.
  - eexists. reflexivity.
  - intros [[e He]|[r [Hr Hok]]].
    + discriminate He.
    + injection Hr as <-. discriminate Hok.
Qed.

(* ================================================================== *)
(** * Proofs: the capture pipeline *)

(** A granted stream on a page with a video and a capture button puts the
    page in StreamActive. *)
Lemma initializeWebcam_granted (p : Platform) (v : Video) (b : Button)
  (stream : MediaStream) :
  video p = Some v -> captureBtn p = Some b ->
  StreamActive (fst (initializeWebcam p (Normal stream))).
Proof.
  intros Hv Hb. unfold initializeWebcam, setupWebcam. rewrite Hv, Hb. cbn.
  eexists _, stream. repeat split.
Qed.

(** A refused stream leaves the page as it was and reports the error. *)
Lemma initializeWebcam_denied (p : Platform) (v : Video) (b : Button) (e : JSError) :
  video p = Some v -> captureBtn p = Some b ->
  initializeWebcam p (Throw e) =
  (p, ConsoleError (str "Error accessing webcam:") e
      :: showWebcamError p (str "Unable to access webcam. Please check permissions.")).
Proof.
  intros Hv Hb. unfold initializeWebcam, setupWebcam. rewrite Hv, Hb. reflexivity.
Qed.

(** A captured file passes [validateImageFile] iff it is within the size
    limit: its type is always a listed one. *)
Lemma captured_file_valid (blob : option Blob) :
  validateImageFile (new_File [blob] (str "webcam_capture.jpg") (str "image/jpeg")) =
  (part_size blob <=? 5 * 1024 * 1024)%Z.
Proof.
  unfold validateImageFile, new_File. cbn [file_type file_size map fold_right].
  change (includes _ (str "image/jpeg")) with true. cbn [negb].
  rewrite Z.add_0_r, Z.gtb_ltb, Z.leb_antisym.
  destruct (5 * 1024 * 1024 <? part_size blob)%Z; reflexivity.
Qed.

(** C8, as the code has it. When the video and the canvas exist, a capture
    draws the current frame on the canvas, sized to the video, and requests
    its encoding as image/jpeg at quality 0.9. When the browser delivers the
    blob and the file input exists, exactly one File of type image/jpeg
    built from that blob is stored in the input and [change] is dispatched,
    which treats it exactly as a manual upload of that file; within the
    5 MiB limit the file stays in the input. *)
Theorem capture_places_one_jpeg (p : Platform) (v : Video) (c : Canvas)
  (input : Field) (blob : option Blob) :
  video p = Some v -> canvas p = Some c -> fileInput p = Some input ->
  let drawn := {| canvas_width := videoWidth v;
                  canvas_height := videoHeight v;
                  canvas_raster := Some (currentFrame v) |} in
  let file := new_File [blob] (str "webcam_capture.jpg") (str "image/jpeg") in
  let p' := fst (captureWebcamPhoto p) in
  snd (captureWebcamPhoto p) =
    Some {| request_source := drawn;
            request_type := str "image/jpeg";
            request_quality := 9 # 10 |} /\
  canvas p' = Some drawn /\
  file_type file = str "image/jpeg" /\
  file_bits file = [blob] /\
  toBlob_callback p' blob =
    ({| video := video p; canvas := Some drawn; captureBtn := captureBtn p;
        fileInput := Some (fst (handleImageUpload (set_files input [file])));
        webcamSection := webcamSection p |},
     snd (handleImageUpload (set_files input [file])) ++ showCaptureSuccess p) /\
  handleImageUpload (set_files input [file]) = manual_upload input file /\
  ((part_size blob <= 5 * 1024 * 1024)%Z ->
   field_files (fst (manual_upload input file)) = [file] /\
   snd (manual_upload input file) =
     [ImagePreviewRequested file; QualityAnalysisRequested file]).
Proof.
  intros Hv Hc Hin drawn file p'.
  assert (Hcap : captureWebcamPhoto p =
                 ({| video := video p; canvas := Some drawn;
                     captureBtn := captureBtn p; fileInput := fileInput p;
                     webcamSection := webcamSection p |},
                  Some {| request_source := drawn;
                          request_type := str "image/jpeg";
                          request_quality := 9 # 10 |})).
  { unfold captureWebcamPhoto. rewrite Hv, Hc. reflexivity. }
  subst p'. rewrite Hcap. cbn [fst snd canvas].
  repeat split.
  - unfold toBlob_callback. cbn [fileInput video canvas captureBtn]. rewrite Hin.
    fold file.
    destruct (handleImageUpload (set_files input [file])) as [input' effects].
    reflexivity.
  - unfold manual_upload, handleImageUpload. cbn [set_files field_files].
    unfold file at 1. rewrite captured_file_valid.
    destruct (Z.leb_spec (part_size blob) (5 * 1024 * 1024)) as [_|Hgt]; [|lia].
    reflexivity.
  - unfold manual_upload, handleImageUpload. cbn [set_files field_files].
    unfold file at 1. rewrite captured_file_valid.
    destruct (Z.leb_spec (part_size blob) (5 * 1024 * 1024)) as [_|Hgt]; [|lia].
    reflexivity.
Qed.

Lemma capture_places_one_jpeg_witness :
  let blob := Some {| blob_size := 120000; blob_type := str "image/jpeg" |} in
  let file := new_File [blob] (str "webcam_capture.jpg") (str "image/jpeg") in
  let p' := fst (captureWebcamPhoto page_with_canvas) in
  fileInput (fst (toBlob_callback p' blob)) =
    Some (fst (handleImageUpload (set_files upload_input [file]))) /\
  field_files (fst (manual_upload upload_input file)) = [file].
Proof.
  intros blob file p'.
  pose proof (@capture_places_one_jpeg page_with_canvas _ _ upload_input blob
                eq_refl eq_refl eq_refl) as H.
  cbv zeta in H. destruct H as [_ [_ [_ [_ [Hcb [_ Hkeep]]]]]].
  split.
  - subst p'. rewrite Hcb. reflexivity.
  - apply Hkeep. vm_compute. discriminate.
Defined.

(** C8 as worded fails: on a page in StreamActive that has no canvas
    element a capture requests no encoding, stores nothing in the file
    input and dispatches nothing. *)
Lemma capture_without_canvas_counterexample :
  let p := fst (initializeWebcam page_without_canvas (Normal 1%nat)) in
  StreamActive p /\
  captureWebcamPhoto p = (p, None) /\
  (forall encode, capture p encode = (p, [])) /\
  fileInput p = Some upload_input /\
  field_files upload_input = [].
Proof.
  intros p. split; [|repeat split].
  exact (@initializeWebcam_granted page_without_canvas _ _ 1%nat eq_refl eq_refl).
Qed.

(* ================================================================== *)
(** * Further properties: the image quality estimator *)

Section ColourOnly.
Context {num : Type} {number : JSNumber num}.

Lemma pixel_value_colour (p q : Pixel) :
  colour p = colour q -> pixel_value (num:=num) p = pixel_value q.
Proof.
  unfold colour, pixel_value. intros H. injection H as -> -> ->. reflexivity.
Qed.

Lemma fold_sum_colour (f : Pixel -> num) (ps : list Pixel) :
  (forall p q, colour p = colour q -> f p = f q) ->
  forall (qs : list Pixel) (acc : num),
    map colour ps = map colour qs ->
    fold_left (fun a p => add a (f p)) ps acc =
    fold_left (fun a p => add a (f p)) qs acc.
Proof.
  intros Hf. induction ps as [|p ps IH]; intros [|q qs] acc Hmap;
    try discriminate; [reflexivity|].
  simpl in Hmap.
  assert (Hpq : colour p = colour q) by congruence.
  assert (Hrest : map colour ps = map colour qs) by congruence.
  simpl. rewrite (Hf p q Hpq). apply IH. exact Hrest.
Qed.

Lemma pixelCount_colour (ps qs : list Pixel) :
  map colour ps = map colour qs ->
  pixelCount (num:=num) (rgba ps) = pixelCount (rgba qs).
Proof.
  intros Hmap. unfold pixelCount. rewrite !rgba_length.
  rewrite <- (length_map colour ps), Hmap, length_map. reflexivity.
Qed.

Lemma brightness_colour (ps qs : list Pixel) :
  map colour ps = map colour qs ->
  brightness (num:=num) (rgba ps) = brightness (rgba qs).
Proof.
  intros Hmap. rewrite !brightness_as_sum. unfold ordered_sum.
  rewrite (pixelCount_colour _ _ Hmap).
  rewrite (fold_sum_colour pixel_value ps pixel_value_colour qs _ Hmap).
  reflexivity.
Qed.

Lemma contrast_colour (ps qs : list Pixel) :
  map colour ps = map colour qs ->
  contrast (num:=num) (rgba ps) = contrast (rgba qs).
Proof.
  intros Hmap. rewrite !contrast_as_sum. unfold ordered_sum.
  rewrite (pixelCount_colour _ _ Hmap), (brightness_colour _ _ Hmap).
  rewrite (fold_sum_colour
             (fun p => Math_pow2 (sub (pixel_value p) (brightness (rgba qs)))) ps)
    with (qs := qs); [reflexivity| |exact Hmap].
  intros p q Hpq. rewrite (pixel_value_colour Hpq). reflexivity.
Qed.

(** X1. In any arithmetic, the engine's doubles included, the score depends
    only on the colour channels of the pixels, in order: the alpha bytes and
    the recorded width and height are never read. *)
Theorem calculateImageQuality_ignores_alpha (ps qs : list Pixel) (w h w' h' : Z) :
  map colour ps = map colour qs ->
  calculateImageQuality (num:=num) {| data := rgba ps; width := w; height := h |} =
  calculateImageQuality {| data := rgba qs; width := w'; height := h' |}.
Proof.
  intros Hmap. unfold calculateImageQuality, brightnessScore, contrastScore.
  cbn [data]. rewrite (brightness_colour _ _ Hmap), (contrast_colour _ _ Hmap).
  reflexivity.
Qed.
End ColourOnly.

Lemma calculateImageQuality_ignores_alpha_witness :
  calculateImageQuality (num:=binary64)
    {| data := [12; 200; 90; 255; 7; 7; 7; 255]%Z; width := 2; height := 1 |} =
  calculateImageQuality (num:=binary64)
    {| data := [12; 200; 90; 0; 7; 7; 7; 31]%Z; width := 1; height := 2 |}.
Proof.
  exact (@calculateImageQuality_ignores_alpha binary64 _
           [ {| red := 12; green := 200; blue := 90; alpha := 255 |};
             {| red := 7; green := 7; blue := 7; alpha := 255 |} ]
           [ {| red := 12; green := 200; blue := 90; alpha := 0 |};
             {| red := 7; green := 7; blue := 7; alpha := 31 |} ]
           2 1 1 2 eq_refl).
Defined.

Local Open Scope R_scope.

Lemma calculateImageQuality_range_witness :
  exists s : R,
    calculateImageQuality (num:=ideal)
      {| data := rgba [white; black; white]; width := 3; height := 1 |} = Some s /\
    - (0.4 / 127) <= s <= 1.
Proof.
  apply (@calculateImageQuality_range [white; black; white] 3 1).
  - discriminate.
  - repeat constructor; unfold channels_in_range; simpl; lia.
Defined.

(** The band a real score falls in, with the message it gets. *)
Lemma feedback_cases (s : R) :
  (0.8 <= s /\
   generateQualityFeedback (num:=ideal) (Some s) = str "Excellent image quality") \/
  (0.6 <= s < 0.8 /\
   generateQualityFeedback (num:=ideal) (Some s) = str "Good image quality") \/
  (0.4 <= s < 0.6 /\
   generateQualityFeedback (num:=ideal) (Some s) =
   str "Fair image quality - consider retaking with better lighting") \/
  (s < 0.4 /\
   generateQualityFeedback (num:=ideal) (Some s) =
   str "Poor image quality - please retake with better lighting and focus").
Proof.
  unfold generateQualityFeedback.
  destruct (ideal_ge_dec s 8) as [[-> H8]|[-> H8]].
  { left. split; [lra|reflexivity]. }
  destruct (ideal_ge_dec s 6) as [[-> H6]|[-> H6]].
  { right. left. split; [lra|reflexivity]. }
  destruct (ideal_ge_dec s 4) as [[-> H4]|[-> H4]].
  { right. right. left. split; [lra|reflexivity]. }
  right. right. right. split; [lra|reflexivity].
Qed.


Lemma spec_contrast_nonneg (pixels : list Pixel) : 0 <= spec_contrast pixels.
Proof. unfold spec_contrast, population_stddev. apply sqrt_pos. Qed.

(** ** Rasters of one luminance *)

Lemma flat_brightness (L : R) (pixels : list Pixel) :
  pixels <> [] -> (forall p, In p pixels -> luminance p = L) ->
  spec_brightness pixels = L.
Proof.
  intros Hne Hflat. unfold spec_brightness, mean.
  rewrite (@Rsum_const L), length_map.
  - pose proof (INR_length_pos Hne). field. lra.
  - intros x Hin. apply in_map_iff in Hin as [p [<- Hp]]. auto.
Qed.

Lemma flat_contrast (L : R) (pixels : list Pixel) :
  pixels <> [] -> (forall p, In p pixels -> luminance p = L) ->
  spec_contrast pixels = 0.
Proof.
  intros Hne Hflat. unfold spec_contrast, population_stddev.
  fold (spec_brightness pixels). rewrite (flat_brightness Hne Hflat).
  rewrite (@Rsum_const 0).
  - rewrite Rmult_0_l. unfold Rdiv. rewrite Rmult_0_l. apply sqrt_0.
  - intros x Hin. apply in_map_iff in Hin as [y [<- Hy]].
    apply in_map_iff in Hy as [p [<- Hp]]. rewrite (Hflat p Hp). lra.
Qed.

(** X3. A non-empty raster of bytes whose pixels all have the same
    (R+G+B)/3 = L is rated Fair when L is exactly 127 and Poor for every
    other L, never better. *)
Theorem flat_raster_verdict (L : R) (pixels : list Pixel) (w h : Z) :
  pixels <> [] ->
  Forall channels_in_range pixels ->
  (forall p, In p pixels -> luminance p = L) ->
  let image := {| data := rgba pixels; width := w; height := h |} in
  (L = 127 ->
   generateQualityFeedback (calculateImageQuality (num:=ideal) image) =
   str "Fair image quality - consider retaking with better lighting") /\
  (L <> 127 ->
   generateQualityFeedback (calculateImageQuality (num:=ideal) image) =
   str "Poor image quality - please retake with better lighting and focus").
Proof.
  intros Hne _ Hflat image. subst image.
  assert (Hscore : calculateImageQuality (num:=ideal)
                     {| data := rgba pixels; width := w; height := h |} =
                   Some (0.4 * (1 - Rabs (L - 127) / 127))).
  { rewrite (ideal_calculateImageQuality w h Hne). f_equal.
    unfold spec_brightnessScore, spec_contrastScore.
    rewrite (flat_brightness Hne Hflat), (flat_contrast Hne Hflat).
    replace (0 / 64) with 0 by lra. rewrite Rmin_left by lra. lra. }
  rewrite Hscore.
  set (s := 0.4 * (1 - Rabs (L - 127) / 127)).
  pose proof (Rabs_pos (L - 127)) as Hpos.
  split.
  - intros ->. assert (Hs : s = 0.4).
    { unfold s. replace (127 - 127) with 0 by lra. rewrite Rabs_R0. lra. }
    destruct (feedback_cases s) as [[Hb _]|[[Hb _]|[[_ Hf]|[Hb _]]]];
      try lra. exact Hf.
  - intros HL. assert (Habs : 0 < Rabs (L - 127)).
    { apply Rabs_pos_lt. lra. }
    assert (Hs : s < 0.4).
    { unfold s. assert (0 < Rabs (L - 127) / 127).
      { apply Rdiv_lt_0_compat; lra. }
      lra. }
    destruct (feedback_cases s) as [[Hb _]|[[Hb _]|[[Hb _]|[_ Hf]]]];
      try lra. exact Hf.
Qed.

Lemma flat_raster_verdict_witness :
  let image := {| data := rgba [white; white]; width := 2; height := 1 |} in
  (255 = 127 ->
   generateQualityFeedback (calculateImageQuality (num:=ideal) image) =
   str "Fair image quality - consider retaking with better lighting") /\
  (255 <> 127 ->
   generateQualityFeedback (calculateImageQuality (num:=ideal) image) =
   str "Poor image quality - please retake with better lighting and focus").
Proof.
  intros image.
  assert (Hflat : forall p, In p [white; white] -> luminance p = 255).
  { intros p [<-|[<-|[]]]; unfold luminance, white; simpl; lra. }
  assert (Hne : [white; white] <> []) by discriminate.
  assert (Hbytes : Forall channels_in_range [white; white]).
  { repeat constructor; unfold channels_in_range; simpl; lia. }
  exact (@flat_raster_verdict 255 [white; white] 2 1 Hne Hbytes Hflat).
Defined.

(** The engine's doubles give the same verdict: for every channel sum from
    0 to 765 and every raster of 1 to 12 pixels of that one colour, Fair
    when the sum is 381 and Poor otherwise. *)
Example flat_raster_binary64 :
  forallb
    (fun sum =>
       forallb
         (fun n =>
            str_eqb
              (generateQualityFeedback
                 (calculateImageQuality (num:=binary64)
                    {| data := rgba (flat_raster sum n);
                       width := Z.of_nat n; height := 1 |}))
              (if (sum =? 381)%Z
               then str "Fair image quality - consider retaking with better lighting"
               else str "Poor image quality - please retake with better lighting and focus"))
         (seq 1 12))
    (map Z.of_nat (seq 0 766)) = true.
Proof. vm_compute. reflexivity. Qed.



(** ** The exact mean and deviation do not depend on the order of the pixels *)

Lemma Rsum_Permutation (xs ys : list R) : Permutation xs ys -> Rsum xs = Rsum ys.
Proof.
  induction 1 as [|x xs ys _ IH|x y xs|xs ys zs _ IH1 _ IH2]; simpl; lra.
Qed.

Lemma spec_brightness_Permutation (ps qs : list Pixel) :
  Permutation ps qs -> spec_brightness ps = spec_brightness qs.
Proof.
  intros Hperm. unfold spec_brightness, mean.
  rewrite (Rsum_Permutation (Permutation_map luminance Hperm)), !length_map.
  rewrite (Permutation_length Hperm). reflexivity.
Qed.

Lemma spec_contrast_Permutation (ps qs : list Pixel) :
  Permutation ps qs -> spec_contrast ps = spec_contrast qs.
Proof.
  intros Hperm. unfold spec_contrast, population_stddev.
  fold (spec_brightness ps). fold (spec_brightness qs).
  rewrite (spec_brightness_Permutation Hperm), !length_map.
  rewrite (Permutation_length Hperm).
  rewrite (Rsum_Permutation
             (Permutation_map _ (Permutation_map luminance Hperm))).
  reflexivity.
Qed.

(** ** Black and white in equal numbers *)

Lemma Rsum_app (xs ys : list R) : Rsum (xs ++ ys) = Rsum xs + Rsum ys.
Proof. induction xs as [|x xs IH]; simpl; [lra|rewrite IH; lra]. Qed.

Lemma Rsum_repeat (c : R) (n : nat) : Rsum (repeat c n) = c * INR n.
Proof.
  induction n as [|n IH]; [simpl; lra|].
  change (repeat c (S n)) with (c :: repeat c n).
  change (Rsum (c :: repeat c n)) with (c + Rsum (repeat c n)).
  rewrite IH, S_INR. lra.
Qed.

Lemma luminance_black_white (n : nat) :
  map luminance (repeat black n ++ repeat white n) = repeat 0 n ++ repeat 255 n.
Proof.
  rewrite map_app, !map_repeat. f_equal; f_equal; unfold luminance; simpl; lra.
Qed.

Lemma black_white_brightness (n : nat) :
  (0 < n)%nat -> spec_brightness (repeat black n ++ repeat white n) = (255 / 2).
Proof.
  intros Hn. unfold spec_brightness, mean.
  rewrite luminance_black_white, Rsum_app, !Rsum_repeat, length_app, !repeat_length.
  rewrite plus_INR. apply lt_0_INR in Hn. field. lra.
Qed.

Lemma black_white_contrast (n : nat) :
  (0 < n)%nat -> spec_contrast (repeat black n ++ repeat white n) = (255 / 2).
Proof.
  intros Hn. unfold spec_contrast, population_stddev.
  fold (spec_brightness (repeat black n ++ repeat white n)).
  rewrite (black_white_brightness Hn), luminance_black_white.
  rewrite map_app, !map_repeat, Rsum_app, !Rsum_repeat, length_app, !repeat_length.
  rewrite plus_INR. apply lt_0_INR in Hn.
  replace (((0 - (255 / 2)) * (0 - (255 / 2)) * INR n + (255 - (255 / 2)) * (255 - (255 / 2)) * INR n)
           / (INR n + INR n)) with ((255 / 2) * (255 / 2)) by (field; lra).
  apply sqrt_square. lra.
Qed.

(** X6. A raster with as many pure black as pure white pixels, in any
    order, saturates the contrast score at 1, scores 1 - 0.2/127 and is
    rated Excellent. *)
Theorem black_and_white_excellent (n : nat) (pixels : list Pixel) (w h : Z) :
  (0 < n)%nat ->
  Permutation pixels (repeat black n ++ repeat white n) ->
  let image := {| data := rgba pixels; width := w; height := h |} in
  contrastScore (num:=ideal) (data image) = Some 1 /\
  calculateImageQuality (num:=ideal) image = Some (1 - 0.2 / 127) /\
  generateQualityFeedback (calculateImageQuality (num:=ideal) image) =
  str "Excellent image quality".
Proof.
  intros Hn Hperm image. subst image. cbn [data].
  assert (Hne : pixels <> []).
  { intros ->. apply Permutation_length in Hperm.
    rewrite length_app, !repeat_length in Hperm. simpl in Hperm. lia. }
  assert (Hb : spec_brightness pixels = (255 / 2))
    by (rewrite (spec_brightness_Permutation Hperm); apply (black_white_brightness Hn)).
  assert (Hc : spec_contrast pixels = (255 / 2))
    by (rewrite (spec_contrast_Permutation Hperm); apply (black_white_contrast Hn)).
  assert (Hcs : spec_contrastScore pixels = 1).
  { unfold spec_contrastScore. rewrite Hc. apply Rmin_right. lra. }
  assert (Hscore : calculateImageQuality (num:=ideal)
                     {| data := rgba pixels; width := w; height := h |} =
                   Some (1 - 0.2 / 127)).
  { rewrite (ideal_calculateImageQuality w h Hne), Hcs. f_equal.
    unfold spec_brightnessScore. rewrite Hb.
    replace (255 / 2 - 127) with (1 / 2) by lra. rewrite Rabs_right by lra. lra. }
  split; [rewrite (ideal_contrastScore Hne), Hcs; reflexivity|].
  split; [exact Hscore|]. rewrite Hscore.
  destruct (feedback_cases (1 - 0.2 / 127)) as [[_ Hf]|[[Hr _]|[[Hr _]|[Hr _]]]];
    try lra. exact Hf.
Qed.

Lemma black_and_white_excellent_witness :
  let image := {| data := rgba [white; black]; width := 2; height := 1 |} in
  contrastScore (num:=ideal) (data image) = Some 1 /\
  calculateImageQuality (num:=ideal) image = Some (1 - 0.2 / 127) /\
  generateQualityFeedback (calculateImageQuality (num:=ideal) image) =
  str "Excellent image quality".
Proof.
  apply (@black_and_white_excellent 1 [white; black] 2 1).
  - lia.
  - apply perm_swap.
Defined.

(** The engine's doubles agree on such rasters. *)
Example black_and_white_binary64 :
  forall n : nat, In n [1; 2; 5; 50]%nat ->
  let image := {| data := rgba (repeat black n ++ repeat white n);
                  width := Z.of_nat n; height := 2 |} in
  generateQualityFeedback (calculateImageQuality (num:=binary64) image) =
  str "Excellent image quality".
Proof.
  intros n Hn. simpl in Hn.
  repeat (destruct Hn as [<-|Hn]; [vm_compute; reflexivity|]).
  contradiction.
Qed.

(** ** The feedback box *)

Lemma spec_score_range (pixels : list Pixel) :
  pixels <> [] -> Forall channels_in_range pixels ->
  - (0.4 / 127) <=
  spec_brightnessScore pixels * 0.4 + spec_contrastScore pixels * 0.6 <= 1.
Proof.
  intros Hne Hrange.
  pose proof (spec_brightness_range Hne Hrange) as [Hb0 Hb1].
  pose proof (spec_contrastScore_range pixels) as [Hc0 Hc1].
  unfold spec_brightnessScore.
  assert (Habs : 0 <= Rabs (spec_brightness pixels - 127) <= 128).
  { split; [apply Rabs_pos|]. apply Rabs_le. lra. }
  set (a := Rabs (spec_brightness pixels - 127)) in *.
  set (c := spec_contrastScore pixels) in *.
  lra.
Qed.

(** [Math.round] of a percentage between -1/2 and 100 + 1/2. *)
Lemma ideal_round_percent (x : R) :
  - / 2 <= x < 100 + / 2 ->
  exists k : Z, ideal_round (Some x) = Some (IZR k) /\ (0 <= k <= 100)%Z.
Proof.
  intros [Hlo Hhi]. exists (Int_part (x + / 2)). split; [reflexivity|].
  destruct (base_Int_part (x + / 2)) as [Hle Hgt].
  assert (H0 : (-1 < Int_part (x + / 2))%Z) by (apply lt_IZR; lra).
  assert (H1 : (Int_part (x + / 2) < 101)%Z) by (apply lt_IZR; lra).
  lia.
Qed.

(** X7. For every non-empty raster of bytes, the box [showQualityFeedback]
    leaves on a page that had at most one is the only one; the percentage
    it shows is a whole number between 0 and 100, although the score itself
    can be negative; and it is green exactly when the rating is Good or
    Excellent, amber exactly when it is Fair or Poor. *)
Theorem quality_box_consistent (pixels : list Pixel) (w h : Z)
  (existing : list (@FeedbackBox ideal)) :
  pixels <> [] ->
  Forall channels_in_range pixels ->
  (List.length existing <= 1)%nat ->
  let quality :=
    analyzeImageQuality w h {| data := rgba pixels; width := w; height := h |} in
  exists box : @FeedbackBox ideal,
    showQualityFeedback ideal_round quality existing = [box] /\
    (exists k : Z, box_percent box = Some (IZR k) /\ (0 <= k <= 100)%Z) /\
    box_feedback box = feedback quality /\
    (box_background box = str "#e8f5e8" <->
     feedback quality = str "Good image quality" \/
     feedback quality = str "Excellent image quality") /\
    (box_background box = str "#fff3cd" <->
     feedback quality =
       str "Fair image quality - consider retaking with better lighting" \/
     feedback quality =
       str "Poor image quality - please retake with better lighting and focus").
Proof.
  intros Hne Hrange Hone quality. subst quality.
  unfold analyzeImageQuality, showQualityFeedback. cbn [score feedback dimensions].
  rewrite (ideal_calculateImageQuality w h Hne).
  pose proof (spec_score_range Hne Hrange) as [Hlo Hhi].
  set (s := spec_brightnessScore pixels * 0.4 + spec_contrastScore pixels * 0.6) in *.
  assert (Htl : tl existing = []).
  { destruct existing as [|b [|b' rest]]; simpl in *; try reflexivity; lia. }
  rewrite Htl. cbn [app]. eexists. split; [reflexivity|].
  cbn [box_percent box_feedback box_background].
  split.
  { cbn [mul of_Z ideal_number lift2]. apply ideal_round_percent. lra. }
  split; [reflexivity|].
  destruct (feedback_cases s) as [[Hr Hf]|[[Hr Hf]|[[Hr Hf]|[Hr Hf]]]];
    rewrite Hf;
    destruct (ideal_ge_dec s 6) as [[-> H6]|[-> H6]]; try lra;
    repeat split; intros E; auto;
    try (exfalso; vm_compute in E; discriminate E);
    try (destruct E as [E|E]; exfalso; vm_compute in E; discriminate E).
Qed.

Lemma quality_box_consistent_witness :
  let quality :=
    analyzeImageQuality (num:=ideal) 2 1
      {| data := rgba [white; white]; width := 2; height := 1 |} in
  exists box : @FeedbackBox ideal,
    showQualityFeedback ideal_round quality [] = [box] /\
    (exists k : Z, box_percent box = Some (IZR k) /\ (0 <= k <= 100)%Z) /\
    box_feedback box = feedback quality /\
    (box_background box = str "#e8f5e8" <->
     feedback quality = str "Good image quality" \/
     feedback quality = str "Excellent image quality") /\
    (box_background box = str "#fff3cd" <->
     feedback quality =
       str "Fair image quality - consider retaking with better lighting" \/
     feedback quality =
       str "Poor image quality - please retake with better lighting and focus").
Proof.
  apply (@quality_box_consistent [white; white] 2 1 []).
  - discriminate.
  - repeat constructor; unfold channels_in_range; simpl; lia.
  - simpl. lia.
Defined.

Local Close Scope R_scope.

(* ================================================================== *)
(** * Further properties: field and form validation *)

(** Every rejection of [validateField] carries a message. *)
Lemma checkField_message (field : Field) :
  fst (checkField field) = false -> snd (checkField field) <> [].
Proof.
  unfold checkField.
  repeat match goal with
         | |- context [if ?b then _ else _] => destruct b
         | |- context [match ?x with _ => _ end] => destruct x
         end;
    cbn [fst snd]; intros H; try discriminate H; intros E; vm_compute in E;
    discriminate E.
Qed.

(** Neither helper touches what the user entered. *)
Lemma clearFieldError_keeps (field : Field) :
  field_type (clearFieldError field) = field_type field /\
  field_name (clearFieldError field) = field_name field /\
  field_required (clearFieldError field) = field_required field /\
  field_value (clearFieldError field) = field_value field /\
  field_files (clearFieldError field) = field_files field.
Proof. repeat split. Qed.

Lemma showFieldError_keeps (field : Field) (message : jsstring) :
  field_type (showFieldError field message) = field_type field /\
  field_name (showFieldError field message) = field_name field /\
  field_required (showFieldError field message) = field_required field /\
  field_value (showFieldError field message) = field_value field /\
  field_files (showFieldError field message) = field_files field.
Proof. repeat split. Qed.

Lemma validateField_keeps (field : Field) :
  field_type (snd (validateField field)) = field_type field /\
  field_name (snd (validateField field)) = field_name field /\
  field_required (snd (validateField field)) = field_required field /\
  field_value (snd (validateField field)) = field_value field /\
  field_files (snd (validateField field)) = field_files field.
Proof.
  unfold validateField. destruct (checkField field) as [[|] message]; cbn [negb snd].
  - apply clearFieldError_keeps.
  - apply showFieldError_keeps.
Qed.

(** X8. What [validateField] returns and what it shows always agree: on a
    field with at most one annotation under its parent, a valid verdict
    leaves no annotation and the default border, an invalid verdict leaves
    exactly one annotation, with a non-empty message, and the red border;
    the type, name, value and files of the field are never changed. *)
Theorem validateField_verdict_shown (field : Field) :
  (List.length (parent_errors field) <= 1)%nat ->
  let isValid := fst (validateField field) in
  let field' := snd (validateField field) in
  (isValid = true ->
   parent_errors field' = [] /\ border_color field' = str "") /\
  (isValid = false ->
   exists message, message <> [] /\
     parent_errors field' = [message] /\ border_color field' = str "#e74c3c") /\
  field_type field' = field_type field /\
  field_name field' = field_name field /\
  field_value field' = field_value field /\
  field_files field' = field_files field.
Proof.
  intros Hone isValid field'. subst isValid field'.
  destruct (validateField_keeps field) as [Ht [Hn [_ [Hv Hf]]]].
  split; [|split; [|repeat split; assumption]].
  - intros Hvalid. rewrite validateField_fst in Hvalid.
    rewrite (validateField_valid field Hvalid). cbn [snd].
    split; [apply (clearFieldError_no_annotation field Hone)|reflexivity].
  - intros Hinvalid. rewrite validateField_fst in Hinvalid.
    pose proof (checkField_message field Hinvalid) as Hmsg.
    unfold validateField.
    destruct (checkField field) as [isValid message]. cbn [fst snd] in *.
    subst isValid. cbn [negb snd]. exists message.
    split; [exact Hmsg|]. split; [|reflexivity].
    unfold showFieldError, clearFieldError. cbn [parent_errors].
    destruct (parent_errors field) as [|e [|e' rest]]; simpl in *;
      try reflexivity; lia.
Qed.

Lemma validateField_verdict_shown_witness :
  let field := {| field_type := str "number";
                  field_name := str "age";
                  field_required := true;
                  field_value := str "12";
                  field_files := [];
                  parent_errors := [str "Please select an option"];
                  border_color := str "" |} in
  fst (validateField field) = false /\
  exists message, message <> [] /\
    parent_errors (snd (validateField field)) = [message] /\
    border_color (snd (validateField field)) = str "#e74c3c".
Proof.
  intros field.
  assert (Hone : (List.length (parent_errors field) <= 1)%nat) by (simpl; lia).
  split; [reflexivity|].
  exact (proj1 (proj2 (@validateField_verdict_shown field Hone)) eq_refl).
Defined.

(** X9. The application-id validator checks the length only: a text field
    named application_id is valid iff its trimmed value has at least 3 code
    units, whatever they are. *)
Theorem validateField_application_id (field : Field) :
  field_type field = str "text" ->
  field_name field = str "application_id" ->
  (fst (validateField field) = true <->
   (3 <= List.length (trim (field_value field)))%nat).
Proof.
  intros Htype Hname. rewrite validateField_fst. unfold checkField.
  rewrite Htype, Hname.
  change (str_eqb (str "text") (str "text")) with true.
  change (str_eqb (str "application_id") (str "full_name")) with false.
  change (str_eqb (str "application_id") (str "application_id")) with true.
  cbv iota.
  destruct (Nat.ltb_spec (List.length (trim (field_value field))) 3);
    cbn [fst]; split; intros; try discriminate; try reflexivity; lia.
Qed.

Lemma validateField_application_id_witness :
  fst (validateField (input_element "text" "application_id" " a?b ")) = true <->
  (3 <= List.length (trim (str " a?b ")))%nat.
Proof.
  exact (@validateField_application_id
           (input_element "text" "application_id" " a?b ") eq_refl eq_refl).
Defined.

(** X10. A select is valid iff its value, trimmed, is not empty: a value of
    whitespace only counts as no selection. *)
Theorem validateField_select_one (field : Field) :
  field_type field = str "select-one" ->
  (fst (validateField field) = true <-> trim (field_value field) <> []).
Proof.
  intros Htype. rewrite validateField_fst. unfold checkField. rewrite Htype.
  change (str_eqb (str "select-one") (str "text")) with false.
  change (str_eqb (str "select-one") (str "number")) with false.
  change (str_eqb (str "select-one") (str "file")) with false.
  change (str_eqb (str "select-one") (str "select-one")) with true.
  cbv iota.
  destruct (trim (field_value field)); cbn [fst]; split; intros;
    try discriminate; try reflexivity; contradiction.
Qed.

Lemma validateField_select_one_witness :
  fst (validateField (input_element "select-one" "country" "  ")) = true <->
  trim (str "  ") <> [].
Proof.
  exact (@validateField_select_one (input_element "select-one" "country" "  ") eq_refl).
Defined.

(** X11. Every check of a file input looks at the first selected file only:
    [validateField], the file pass of [validateForm] and
    [handleImageUpload] give the same verdict, and request the same preview
    and analysis, whatever files follow the first. *)
Theorem only_first_file_checked (input : Field) (file : File) (rest rest' : list File) :
  fst (validateField (set_files input (file :: rest))) =
  fst (validateField (set_files input (file :: rest'))) /\
  fst (validateFileInput (set_files input (file :: rest))) =
  fst (validateFileInput (set_files input (file :: rest'))) /\
  snd (handleImageUpload (set_files input (file :: rest))) =
  snd (handleImageUpload (set_files input (file :: rest'))) /\
  (field_type input = str "file" ->
   fst (validateField (set_files input (file :: rest))) = validateImageFile file).
Proof.
  repeat split.
  - rewrite !validateField_fst. unfold checkField. cbn [set_files field_type
      field_name field_value field_files].
    reflexivity.
  - unfold validateFileInput. cbn [set_files field_type field_files].
    destruct (str_eqb (field_type input) (str "file")); [|reflexivity].
    destruct (validateImageFile file); reflexivity.
  - unfold handleImageUpload. cbn [set_files field_files].
    destruct (validateImageFile file); reflexivity.
  - intros Htype. rewrite validateField_fst. unfold checkField.
    cbn [set_files field_type field_name field_value field_files]. rewrite Htype.
    change (str_eqb (str "file") (str "text")) with false.
    change (str_eqb (str "file") (str "number")) with false.
    change (str_eqb (str "file") (str "file")) with true.
    cbv iota zeta. destruct (validateImageFile file); reflexivity.
Qed.

(** ** The whole form *)

Lemma validateRequired_keeps (input : Field) :
  field_type (snd (validateRequired input)) = field_type input /\
  field_files (snd (validateRequired input)) = field_files input.
Proof.
  unfold validateRequired. destruct (field_required input); [|split; reflexivity].
  destruct (validateField_keeps input) as [Ht [_ [_ [_ Hf]]]]. split; assumption.
Qed.

(** The verdict of the file pass, by what the input holds. *)
Lemma validateFileInput_fst (input : Field) :
  fst (validateFileInput input) = true <->
  (field_type input = str "file" ->
   exists file rest,
     field_files input = file :: rest /\ validateImageFile file = true).
Proof.
  unfold validateFileInput.
  destruct (str_eqb (field_type input) (str "file")) eqn:Htype.
  - apply str_eqb_eq in Htype.
    destruct (field_files input) as [|file rest].
    + cbn [fst]. split; [discriminate|]. intros H.
      destruct (H Htype) as [f [r [E _]]]. discriminate E.
    + destruct (validateImageFile file) eqn:Hv; cbn [negb fst].
      * split; [|reflexivity]. intros _ _. exists file, rest. auto.
      * split; [discriminate|]. intros H.
        destruct (H Htype) as [f [r [E Hf]]]. injection E as <- <-. congruence.
  - apply str_eqb_neq in Htype. cbn [fst]. split; [|reflexivity].
    intros _ H. contradiction.
Qed.

(** X12. [validateForm] accepts a form iff every required element passes
    [validateField] and every file input, required or not, holds a first
    file that passes [validateImageFile]: a file input left empty fails the
    form even when it is optional. *)
Theorem validateForm_accepts_iff (form : list Field) :
  fst (validateForm form) = true <->
  (forall input, In input form -> field_required input = true ->
                 fst (validateField input) = true) /\
  (forall input, In input form -> field_type input = str "file" ->
                 exists file rest,
                   field_files input = file :: rest /\
                   validateImageFile file = true).
Proof.
  unfold validateForm. cbn [fst].
  rewrite andb_true_iff, !forallb_forall. split.
  - intros [H1 H2]. split.
    + intros input Hin Hreq.
      specialize (H1 (validateRequired input) (in_map _ _ _ Hin)).
      unfold validateRequired in H1. rewrite Hreq in H1. exact H1.
    + intros input Hin Htype.
      assert (Hin2 : In (validateFileInput (snd (validateRequired input)))
                        (map validateFileInput (map snd (map validateRequired form)))).
      { apply in_map, in_map, in_map. exact Hin. }
      specialize (H2 _ Hin2).
      pose proof (proj1 (validateFileInput_fst _) H2) as H3.
      destruct (validateRequired_keeps input) as [Ht Hf].
      rewrite Ht, Hf in H3. exact (H3 Htype).
  - intros [H1 H2]. split.
    + intros r Hr. apply in_map_iff in Hr as [input [<- Hin]].
      unfold validateRequired. destruct (field_required input) eqn:Hreq;
        [apply (H1 input Hin Hreq)|reflexivity].
    + intros r Hr. apply in_map_iff in Hr as [f1 [<- Hf1]].
      apply in_map_iff in Hf1 as [r1 [<- Hr1]].
      apply in_map_iff in Hr1 as [input [<- Hin]].
      apply validateFileInput_fst.
      destruct (validateRequired_keeps input) as [Ht Hf].
      rewrite Ht, Hf. apply (H2 input Hin).
Qed.

(** [validateForm] visits every element: the form comes back with the same
    elements in the same order, each with what the user entered. *)
Lemma validateForm_keeps (form : list Field) :
  map field_value (snd (validateForm form)) = map field_value form /\
  map field_files (snd (validateForm form)) = map field_files form.
Proof.
  unfold validateForm. cbn [snd]. rewrite !map_map. split; apply map_ext; intros input.
  - unfold validateFileInput, validateRequired.
    destruct (field_required input);
      [destruct (validateField_keeps input) as [_ [_ [_ [Hv _]]]]|];
      repeat match goal with
             | |- context [if ?b then _ else _] => destruct b
             | |- context [match ?x with _ => _ end] => destruct x
             end; cbn; try assumption; reflexivity.
  - unfold validateFileInput, validateRequired.
    destruct (field_required input);
      [destruct (validateField_keeps input) as [_ [_ [_ [_ Hf]]]]|];
      repeat match goal with
             | |- context [if ?b then _ else _] => destruct b eqn:?
             | |- context [match ?x with _ => _ end] => destruct x eqn:?
             end; cbn; try assumption; try reflexivity; congruence.
Qed.

(* ================================================================== *)
(** * Further properties: uploads and captures *)

(** X13. After [handleImageUpload] the input never holds a first file that
    failed [validateImageFile]: either nothing is selected and nothing was
    requested, or the first file is valid, the preview and the analysis were
    requested for exactly that file, and the annotation was cleared. *)
Theorem handleImageUpload_keeps_valid_only (input : Field) :
  let input' := fst (handleImageUpload input) in
  let effects := snd (handleImageUpload input) in
  match field_files input' with
  | [] => effects = []
  | file :: _ =>
      validateImageFile file = true /\
      effects = [ImagePreviewRequested file; QualityAnalysisRequested file] /\
      field_files input' = field_files input /\
      ((List.length (parent_errors input) <= 1)%nat -> parent_errors input' = [])
  end.
Proof.
  unfold handleImageUpload.
  destruct (field_files input) as [|file rest] eqn:Hfiles.
  - cbn [fst snd]. rewrite Hfiles. reflexivity.
  - destruct (validateImageFile file) eqn:Hvalid; cbn [negb fst snd].
    + cbn [clearFieldError field_files]. rewrite Hfiles.
      repeat split; try assumption.
      intros Hone. apply (clearFieldError_no_annotation input Hone).
    + reflexivity.
Qed.

(** A rejected upload empties the input and annotates it. *)
Lemma handleImageUpload_rejects (input : Field) (file : File) (rest : list File) :
  field_files input = file :: rest ->
  validateImageFile file = false ->
  (List.length (parent_errors input) <= 1)%nat ->
  let input' := fst (handleImageUpload input) in
  field_files input' = [] /\
  field_value input' = str "" /\
  parent_errors input' =
    [str "Please upload a valid image file (JPEG, PNG) under 5MB"] /\
  snd (handleImageUpload input) = [].
Proof.
  intros Hfiles Hinvalid Hone. unfold handleImageUpload.
  rewrite Hfiles, Hinvalid. cbn [negb fst snd reset_value field_files field_value
    parent_errors showFieldError clearFieldError].
  repeat split.
  destruct (parent_errors input) as [|e [|e' r]]; simpl in *; try reflexivity; lia.
Qed.

(** X14. A captured frame of more than 5 MiB is announced as a success all
    the same: the file is put into the input, rejected by the upload
    handler and removed again, the input is annotated with the upload error,
    and the only effect left is the capture confirmation. *)
Theorem oversized_capture_reported_as_success (p : Platform) (v : Video) (c : Canvas)
  (b : Button) (input : Field) (encode : ToBlobRequest -> option Blob) :
  video p = Some v -> canvas p = Some c -> captureBtn p = Some b ->
  fileInput p = Some input ->
  (List.length (parent_errors input) <= 1)%nat ->
  (forall request, 5 * 1024 * 1024 < part_size (encode request))%Z ->
  exists input',
    fileInput (fst (capture p encode)) = Some input' /\
    field_files input' = [] /\
    field_value input' = str "" /\
    parent_errors input' =
      [str "Please upload a valid image file (JPEG, PNG) under 5MB"] /\
    snd (capture p encode) = [CaptureSuccessShown].
Proof.
  intros Hv Hc Hb Hin Hone Hbig. unfold capture, captureWebcamPhoto.
  rewrite Hv, Hc. unfold toBlob_callback. cbn [fileInput captureBtn video canvas].
  rewrite Hin.
  set (request := {| request_source := _; request_type := _; request_quality := _ |}).
  set (file := new_File [encode request] (str "webcam_capture.jpg") (str "image/jpeg")).
  assert (Hinvalid : validateImageFile file = false).
  { unfold file. rewrite captured_file_valid.
    apply Z.leb_gt. apply Hbig. }
  assert (Hfiles : field_files (set_files input [file]) = file :: []) by reflexivity.
  assert (Hone' : (List.length (parent_errors (set_files input [file])) <= 1)%nat)
    by exact Hone.
  destruct (handleImageUpload_rejects (set_files input [file]) Hfiles Hinvalid Hone')
    as [H1 [H2 [H3 H4]]].
  destruct (handleImageUpload (set_files input [file])) as [input' effects].
  cbn [fst snd] in *. exists input'. subst effects.
  unfold showCaptureSuccess. rewrite Hb. repeat split; assumption.
Qed.

Lemma oversized_capture_reported_as_success_witness :
  let encode := fun _ : ToBlobRequest =>
                  Some {| blob_size := 6 * 1024 * 1024; blob_type := str "image/jpeg" |} in
  exists input',
    fileInput (fst (capture page_with_canvas encode)) = Some input' /\
    field_files input' = [] /\
    field_value input' = str "" /\
    parent_errors input' =
      [str "Please upload a valid image file (JPEG, PNG) under 5MB"] /\
    snd (capture page_with_canvas encode) = [CaptureSuccessShown].
Proof.
  intros encode.
  apply (@oversized_capture_reported_as_success page_with_canvas _ _ _ upload_input
           encode eq_refl eq_refl eq_refl eq_refl).
  - simpl. lia.
  - intros request. vm_compute. reflexivity.
Defined.


(* ================================================================== *)
(** * Further properties: input listeners *)

Lemma nameInput_onInput_letters (value : jsstring) :
  letters_and_whitespace (nameInput_onInput value).
Proof.
  unfold letters_and_whitespace, nameInput_onInput. apply Forall_forall.
  intros c Hc. apply filter_In in Hc as [_ Hc]. apply orb_true_iff. exact Hc.
Qed.

Lemma trimStart_Forall (P : N -> Prop) (s : jsstring) :
  Forall P s -> Forall P (trimStart s).
Proof.
  induction 1 as [|c s Hc Hs IH]; simpl; [constructor|].
  destruct (is_js_space c); [exact IH|constructor; assumption].
Qed.

Lemma trim_Forall (P : N -> Prop) (s : jsstring) : Forall P s -> Forall P (trim s).
Proof.
  intros H. unfold trim, trimEnd.
  apply Forall_rev, trimStart_Forall, Forall_rev, trimStart_Forall. exact H.
Qed.

(** X16. Once the input mask has run, the name can only be rejected for
    being too short: after an [input] event on the name input, its value
    holds letters and whitespace only, masking it again changes nothing,
    the counter counts the masked value, and [validateField] accepts the
    field iff the trimmed value has at least 2 code units. *)
Theorem masked_name_only_too_short (maxLength : Z) (field : Field) :
  field_type field = str "text" ->
  field_name field = str "full_name" ->
  let field' := fst (fullName_onInput maxLength field) in
  let counter := snd (fullName_onInput maxLength field) in
  field_value field' = nameInput_onInput (field_value field) /\
  letters_and_whitespace (field_value field') /\
  nameInput_onInput (field_value field') = field_value field' /\
  counter_currentLength counter = List.length (field_value field') /\
  (fst (validateField field') = true <->
   (2 <= List.length (trim (field_value field')))%nat).
Proof.
  intros Htype Hname field' counter. subst field' counter.
  unfold fullName_onInput. cbn [fst snd field_value clearFieldError].
  split; [reflexivity|]. split; [apply nameInput_onInput_letters|].
  split.
  { unfold nameInput_onInput. apply forallb_filter_id. apply forallb_forall.
    intros c Hc. apply filter_In in Hc as [_ Hc]. exact Hc. }
  split; [reflexivity|].
  rewrite validateField_fst, checkField_full_name by assumption.
  cbv zeta. cbn [field_value].
  rewrite andb_true_iff, negb_true_iff, Nat.ltb_ge, name_pattern_test_spec.
  split; [intros [Hlen _]; exact Hlen|].
  intros Hlen. split; [exact Hlen|]. split.
  - intros E. rewrite E in Hlen. simpl in Hlen. lia.
  - apply trim_Forall, nameInput_onInput_letters.
Qed.

Lemma masked_name_only_too_short_witness :
  let field := input_element "text" "full_name" " J4ne D0e! " in
  field_value (fst (fullName_onInput 50 field)) = str " Jne De " /\
  fst (validateField (fst (fullName_onInput 50 field))) = true.
Proof.
  intros field.
  destruct (@masked_name_only_too_short 50 field eq_refl eq_refl)
    as [Hvalue [_ [_ [_ Hiff]]]].
  split; [exact Hvalue|]. apply Hiff. vm_compute. lia.
Defined.

(** X17. The character counter turns red iff five times the length exceeds
    four times the limit, where the limit is the element's [maxLength], or
    100 when that is 0.  An element without a [maxlength] attribute, whose
    [maxLength] is -1, therefore has a red counter at every length, the
    empty value included. *)
Theorem characterCounter_red (maxLength_property : Z) (value : jsstring) :
  let counter := characterCounter_onInput maxLength_property value in
  let limit := if (maxLength_property =? 0)%Z then 100%Z else maxLength_property in
  counter_maxLength counter = limit /\
  counter_currentLength counter = List.length value /\
  (counter_color counter = str "#e74c3c" <->
   (4 * limit < 5 * Z.of_nat (List.length value))%Z) /\
  (counter_color counter = str "#7f8c8d" <->
   (5 * Z.of_nat (List.length value) <= 4 * limit)%Z) /\
  ((maxLength_property < 0)%Z -> counter_color counter = str "#e74c3c").
Proof.
  intros counter limit. subst counter. unfold characterCounter_onInput.
  cbn [counter_maxLength counter_currentLength counter_color]. fold limit.
  set (n := Z.of_nat (List.length value)).
  assert (Hle : Qle_bool (inject_Z n) (inject_Z limit * (8 # 10)) = true <->
                (5 * n <= 4 * limit)%Z).
  { rewrite Qle_bool_iff. unfold Qle, Qmult, inject_Z. cbn [Qnum Qden].
    split; intros H; lia. }
  assert (Hred : (maxLength_property < 0)%Z -> (4 * limit < 5 * n)%Z).
  { intros Hneg. unfold limit, n.
    destruct (Z.eqb_spec maxLength_property 0); lia. }
  destruct (Qle_bool (inject_Z n) (inject_Z limit * (8 # 10))) eqn:E; cbn [negb].
  - assert (Hn : (5 * n <= 4 * limit)%Z) by (apply Hle; reflexivity).
    repeat split; intros H; try reflexivity; try lia;
      try (exfalso; vm_compute in H; discriminate H).
  - assert (Hn : ~ (5 * n <= 4 * limit)%Z).
    { intros H. apply Hle in H. discriminate H. }
    repeat split; intros H; try reflexivity; try lia;
      try (exfalso; vm_compute in H; discriminate H).
Qed.

(** The same test on the engine's doubles, [currentLength > maxLength * 0.8],
    falls the same way for every limit from -5 to 400 and every length up
    to 400. *)
Example characterCounter_binary64 :
  forallb
    (fun m =>
       forallb
         (fun n =>
            Bool.eqb
              (PrimFloat.ltb (mul (num:=binary64) (of_Z m) (dec 8 1))
                             (of_Z (Z.of_nat n)))
              (negb (Qle_bool (inject_Z (Z.of_nat n)) (inject_Z m * (8 # 10)))))
         (seq 0 401))
    (map (fun k => Z.of_nat k - 5)%Z (seq 0 406)) = true.
Proof. vm_compute. reflexivity. Qed.

(* ================================================================== *)
(** * Further properties: submission and leaving the page *)

Section LoadingStateProofs.
Variable textContent : jsstring -> jsstring.
Variable innerHTML_assigned : jsstring -> jsstring.

(** X18. [resetLoadingState] undoes [showLoadingState] only for a button
    whose text is not empty: it assigns the stored text to [innerHTML],
    so the button reads back that text parsed as HTML (the text itself when
    it reads back as written), and enables the button.  A button with no
    text stays disabled with the spinner, and after two calls of
    [showLoadingState] the text assigned is that of the spinner markup, not
    the original. *)
Theorem loading_state_round_trip (form : Form) (submitBtn : SubmitButton) :
  form_submitBtn form = Some submitBtn ->
  let original := textContent (innerHTML submitBtn) in
  let shown := fst (showLoadingState textContent form) in
  (original <> [] ->
   resetLoadingState innerHTML_assigned shown =
   {| form_fields := form_fields form;
      form_submitBtn := Some {| innerHTML := innerHTML_assigned original;
                                button_disabled := false;
                                dataset_originalText := Some original |} |}) /\
  (original <> [] -> innerHTML_assigned original = original ->
   resetLoadingState innerHTML_assigned shown =
   {| form_fields := form_fields form;
      form_submitBtn := Some {| innerHTML := original;
                                button_disabled := false;
                                dataset_originalText := Some original |} |}) /\
  (original = [] ->
   resetLoadingState innerHTML_assigned shown = shown /\
   form_submitBtn shown = Some {| innerHTML := loading_markup;
                                  button_disabled := true;
                                  dataset_originalText := Some [] |}) /\
  (textContent loading_markup <> [] ->
   form_submitBtn
     (resetLoadingState innerHTML_assigned
        (fst (showLoadingState textContent shown))) =
   Some {| innerHTML := innerHTML_assigned (textContent loading_markup);
           button_disabled := false;
           dataset_originalText := Some (textContent loading_markup) |}).
Proof.
  intros Hbtn original shown. subst shown.
  unfold showLoadingState. rewrite Hbtn. cbn [fst form_submitBtn innerHTML].
  fold original. unfold resetLoadingState.
  cbn [form_submitBtn dataset_originalText form_fields].
  split; [|split; [|split]].
  - intros Hne. destruct original; [contradiction|reflexivity].
  - intros Hne Hplain. destruct original as [|c t] eqn:E; [contradiction|].
    rewrite Hplain. reflexivity.
  - intros ->. split; reflexivity.
  - intros Hne. destruct (textContent loading_markup); [contradiction|reflexivity].
Qed.
End LoadingStateProofs.

Section SubmitProofs.
Variable textContent : jsstring -> jsstring.

(** X19. Every [submit] event disables the submit button, whether or not
    the form is valid: when [validateForm] fails the default action is
    prevented and the form error is shown, and the button is put in the
    loading state all the same. *)
Theorem onSubmit_always_disables (form : Form) (submitBtn : SubmitButton) :
  form_submitBtn form = Some submitBtn ->
  let form' := fst (onSubmit textContent form) in
  let effects := snd (onSubmit textContent form) in
  form_submitBtn form' =
    Some {| innerHTML := loading_markup;
            button_disabled := true;
            dataset_originalText := Some (textContent (innerHTML submitBtn)) |} /\
  form_fields form' = snd (validateForm (form_fields form)) /\
  (fst (validateForm (form_fields form)) = false ->
   effects = [DefaultPrevented;
              FormErrorShown (str "Please fix the errors before submitting.");
              SpinnerStyleAppended]) /\
  (fst (validateForm (form_fields form)) = true ->
   effects = [SpinnerStyleAppended]).
Proof.
  intros Hbtn form' effects. subst form' effects. unfold onSubmit.
  destruct (validateForm (form_fields form)) as [isValid fields].
  unfold showLoadingState. cbn [form_submitBtn form_fields]. rewrite Hbtn.
  cbn [fst snd form_submitBtn form_fields].
  repeat split; intros ->; reflexivity.
Qed.
End SubmitProofs.

Lemma loading_state_round_trip_witness :
  let submitBtn := {| innerHTML := str "Submit application";
                      button_disabled := false;
                      dataset_originalText := None |} in
  let form := {| form_fields := []; form_submitBtn := Some submitBtn |} in
  resetLoadingState (fun text => text)
    (fst (showLoadingState (fun html => html) form)) =
  {| form_fields := [];
     form_submitBtn := Some {| innerHTML := str "Submit application";
                               button_disabled := false;
                               dataset_originalText := Some (str "Submit application") |} |}.
Proof.
  intros submitBtn form.
  apply (proj1 (@loading_state_round_trip (fun html => html) (fun text => text)
                  form submitBtn eq_refl)).
  vm_compute. intros E. discriminate E.
Defined.

Lemma onSubmit_always_disables_witness :
  let submitBtn := {| innerHTML := str "Submit application";
                      button_disabled := false;
                      dataset_originalText := None |} in
  let form := {| form_fields := [input_element "text" "full_name" "J"];
                 form_submitBtn := Some submitBtn |} in
  fst (validateForm (form_fields form)) = false /\
  form_submitBtn (fst (onSubmit (fun html => html) form)) =
    Some {| innerHTML := loading_markup;
            button_disabled := true;
            dataset_originalText := Some (str "Submit application") |}.
Proof.
  intros submitBtn form. split; [reflexivity|].
  exact (proj1 (@onSubmit_always_disables (fun html => html) form submitBtn eq_refl)).
Defined.

(** ** Leaving the page *)

Lemma holdsData_after_upload (input : Field) :
  field_type input = str "file" ->
  holdsData (fst (handleImageUpload input)) =
  match field_files input with
  | file :: _ => validateImageFile file
  | [] => false
  end.
Proof.
  intros Htype. unfold handleImageUpload, holdsData.
  destruct (field_files input) as [|file rest] eqn:Hfiles.
  - cbn [fst]. rewrite Htype, Hfiles. reflexivity.
  - destruct (validateImageFile file); cbn [negb fst].
    + cbn [clearFieldError field_type field_files]. rewrite Htype, Hfiles. reflexivity.
    + cbn [reset_value showFieldError clearFieldError field_type field_files].
      rewrite Htype. reflexivity.
Qed.

Lemma existsb_false_forall (A : Type) (f : A -> bool) (xs : list A) :
  (forall x, In x xs -> f x = false) -> existsb f xs = false.
Proof.
  intros H. induction xs as [|x xs IH]; [reflexivity|].
  simpl. rewrite (H x) by (left; reflexivity). apply IH.
  intros y Hy. apply H. right. exact Hy.
Qed.

(** X20. On a form whose other elements are blank, the leave-page guard is
    armed by an upload exactly when the upload is accepted: after
    [handleImageUpload] the [beforeunload] handler asks for confirmation iff
    the input held a first file that passes [validateImageFile]; a rejected
    upload leaves nothing to lose. *)
Theorem beforeunload_after_upload (before after : list Field) (input : Field) :
  field_type input = str "file" ->
  (forall other, In other (before ++ after) -> holdsData other = false) ->
  let form := before ++ fst (handleImageUpload input) :: after in
  (beforeunload [form] =
     Some (str "You have unsaved changes. Are you sure you want to leave?") <->
   exists file rest,
     field_files input = file :: rest /\ validateImageFile file = true) /\
  (beforeunload [form] = None <->
   ~ exists file rest,
       field_files input = file :: rest /\ validateImageFile file = true).
Proof.
  intros Htype Hblank form. subst form. unfold beforeunload, hasData.
  cbn [existsb]. rewrite orb_false_r, existsb_app. cbn [existsb].
  rewrite (@existsb_false_forall _ holdsData before)
    by (intros x Hx; apply Hblank, in_or_app; left; exact Hx).
  rewrite (@existsb_false_forall _ holdsData after)
    by (intros x Hx; apply Hblank, in_or_app; right; exact Hx).
  rewrite orb_false_r. cbn [orb]. rewrite (holdsData_after_upload input Htype).
  destruct (field_files input) as [|file rest].
  - repeat split; try discriminate.
    + intros [f [r [E _]]]. discriminate E.
    + intros _ [f [r [E _]]]. discriminate E.
  - destruct (validateImageFile file) eqn:Hvalid; repeat split; try discriminate.
    + intros _. exists file, rest. auto.
    + intros H. exfalso. apply H. exists file, rest. auto.
    + intros [f [r [E Hf]]]. injection E as <- <-. congruence.
    + intros _ [f [r [E Hf]]]. injection E as <- <-. congruence.
Qed.

Lemma beforeunload_after_upload_witness :
  let input := set_files upload_input
                 [new_File [Some {| blob_size := 9000000; blob_type := str "image/png" |}]
                           (str "scan.png") (str "image/png")] in
  let form := [input_element "text" "full_name" "  "]
              ++ fst (handleImageUpload input) :: [] in
  beforeunload [form] = None <->
  ~ exists file rest,
      field_files input = file :: rest /\ validateImageFile file = true.
Proof.
  intros input form.
  apply (@beforeunload_after_upload [input_element "text" "full_name" "  "] [] input).
  - reflexivity.
  - intros other [<-|[]]. reflexivity.
Defined.
